(** * Docking in gyre flow: kinematic swimmer and approach controller

    A shallow embedding of [swimmer.py] and [controller.py].

    Conventions of the embedding.
    - numpy float64 values are idealised as real numbers ([R]); the one
      non-finite value the code ever stores, [np.inf], is kept apart in
      the type [xreal].
    - Python integers are [Z]; numpy arrays indexed by an integer are
      lists, read through [py_index], which raises [IndexError] out of
      range as numpy does.
    - Arrays have the shapes the docstrings give: a pose and a control
      velocity have three components, a flow velocity two or three;
      [Swimmer.update_any] also takes a control velocity of two.
    - Where a statement would not survive rounding, the arithmetic is
      float64 itself ([PrimFloat]), as in [control_vel_f64].
    - A method is a computation in the monad [M S]: it receives the object
      [self : S] and returns the object as the call leaves it together with
      either the returned value or the exception raised. *)

From Stdlib Require Import PrimFloat.
From Stdlib Require Import Reals Lra Lia ZArith List.
From stdpp Require Import base list.

Open Scope R_scope.

(** ** Exceptions and the method monad *)

Inductive exn : Type :=
| IndexError
| ValueError
| ZeroDivisionError.

Definition M (S A : Type) : Type := S -> S * (exn + A).

Definition ret {S A} (a : A) : M S A := fun s => (s, inr a).

Definition bind {S A B} (m : M S A) (k : A -> M S B) : M S B :=
  fun s =>
    match m s with
    | (s', inr a) => k a s'
    | (s', inl e) => (s', inl e)
    end.

Definition raise {S A} (e : exn) : M S A := fun s => (s, inl e).

Definition get {S} : M S S := fun s => (s, inr s).

Definition modify {S} (f : S -> S) : M S unit := fun s => (f s, inr tt).

Declare Scope meth_scope.
Delimit Scope meth_scope with meth.

Notation "x <- m ;; k" := (bind m (fun x => k))
  (at level 100, m at next level, right associativity) : meth_scope.
Notation "m ;; k" := (bind m (fun _ => k))
  (at level 100, right associativity) : meth_scope.

(** ** Vectors [x, y, theta] *)

Record vec3 : Type := Vec3 { vx : R; vy : R; vtheta : R }.

Definition vadd (a b : vec3) : vec3 :=
  Vec3 (vx a + vx b) (vy a + vy b) (vtheta a + vtheta b).

Definition vscale (a : vec3) (k : R) : vec3 :=
  Vec3 (vx a * k) (vy a * k) (vtheta a * k).

Definition smul (k : R) (a : vec3) : vec3 :=
  Vec3 (k * vx a) (k * vy a) (k * vtheta a).

Definition vzero : vec3 := Vec3 0 0 0.

(** A velocity handed to [Swimmer.update]: [dx, dy] or [dx, dy, dtheta]. *)
Inductive velocity : Type :=
| Vel2 (dx dy : R)
| Vel3 (v : vec3).

(** [if len(vel) == 2: vel = np.hstack((vel, 0))] *)
Definition pad_vel (v : velocity) : vec3 :=
  match v with
  | Vel2 dx dy => Vec3 dx dy 0
  | Vel3 w => w
  end.

(** ** Indexing a numpy axis of length [n] with a Python integer *)

Definition py_index (n : nat) (i : Z) : option nat :=
  if (0 <=? i)%Z then
    (if (i <? Z.of_nat n)%Z then Some (Z.to_nat i) else None)
  else
    (if (- Z.of_nat n <=? i)%Z then Some (Z.to_nat (Z.of_nat n + i)) else None).

(** A sequence of times is strictly increasing. *)
Definition strictly_increasing (l : list R) : Prop :=
  forall (i j : nat) (a b : R),
    (i < j)%nat -> l !! i = Some a -> l !! j = Some b -> a < b.

(** ** swimmer.py *)

Module Swimmer.

(** One row [t, x, y, theta] of [poseHist]. *)
Record row : Type := Row { row_t : R; row_pose : vec3 }.

Record t : Type := mk {
  life : Z;
  lifespan : Z;
  poseHist : list row
}.

Definition set_life (n : Z) (self : t) : t :=
  mk n (lifespan self) (poseHist self).

Definition set_poseHist (h : list row) (self : t) : t :=
  mk (life self) (lifespan self) h.

(** [np.zeros((lifespan, 4))] *)
Definition zeros (n : Z) : exn + list row :=
  if (n <? 0)%Z then inl ValueError
  else inr (replicate (Z.to_nat n) (Row 0 vzero)).

(** [Swimmer.__init__] *)
Definition init (pose : vec3) (lifespan : Z) : exn + t :=
  match zeros lifespan with
  | inl e => inl e
  | inr h =>
      match py_index (length h) 0 with
      | None => inl IndexError
      | Some i =>
          match h !! i with
          | None => inl IndexError
          | Some r => inr (mk 0 lifespan (<[i := Row (row_t r) pose]> h))
          end
      end
  end.

(** [self.poseHist[i]] as a row, read *)
Definition read_row (i : Z) : M t row :=
  fun self =>
    match py_index (length (poseHist self)) i with
    | None => (self, inl IndexError)
    | Some k =>
        match poseHist self !! k with
        | None => (self, inl IndexError)
        | Some r => (self, inr r)
        end
    end.

(** [self.poseHist[i] = f(self.poseHist[i])], an assignment into row [i] *)
Definition write_row (i : Z) (f : row -> row) : M t unit :=
  fun self =>
    match py_index (length (poseHist self)) i with
    | None => (self, inl IndexError)
    | Some k =>
        match poseHist self !! k with
        | None => (self, inl IndexError)
        | Some r => (set_poseHist (<[k := f r]> (poseHist self)) self, inr tt)
        end
    end.

(** [Swimmer.get_pose] *)
Definition get_pose : M t vec3 :=
  (self <- get ;;
   r <- read_row (life self) ;;
   ret (row_pose r))%meth.

(** [Swimmer.update]; a caller that leaves [contVel] out passes
    [np.array((0, 0, 0))], here [vzero]. *)
Definition update (time : R) (vel : velocity) (contVel : vec3) : M t unit :=
  (self <- get ;;
   if (life self >=? lifespan self - 1)%Z then raise IndexError
   else
     r0 <- read_row (life self) ;;
     let dt := time - row_t r0 in
     let vel := pad_vel vel in
     r1 <- read_row (life self) ;;
     let newPose := vadd (row_pose r1) (vscale (vadd vel contVel) dt) in
     modify (fun self => set_life (life self + 1) self) ;;
     self <- get ;;
     write_row (life self) (fun r => Row time (row_pose r)) ;;
     write_row (life self) (fun r => Row (row_t r) newPose))%meth.

(** [vel + contVel] on line 56, where [vel] has three components by then:
    numpy adds a three-component [contVel] componentwise and refuses a
    two-component one (shapes [(3,)] and [(2,)] do not broadcast). *)
Definition np_add (vel : vec3) (contVel : velocity) : exn + vec3 :=
  match contVel with
  | Vel3 c => inr (vadd vel c)
  | Vel2 _ _ => inl ValueError
  end.

(** [Swimmer.update] once more, for a control velocity of either shape.
    With three components it is [update] (see [update_any_three]). *)
Definition update_any (time : R) (vel contVel : velocity) : M t unit :=
  (self <- get ;;
   if (life self >=? lifespan self - 1)%Z then raise IndexError
   else
     r0 <- read_row (life self) ;;
     let dt := time - row_t r0 in
     let vel := pad_vel vel in
     r1 <- read_row (life self) ;;
     match np_add vel contVel with
     | inl e => raise e
     | inr total =>
         let newPose := vadd (row_pose r1) (vscale total dt) in
         modify (fun self => set_life (life self + 1) self) ;;
         self <- get ;;
         write_row (life self) (fun r => Row time (row_pose r)) ;;
         write_row (life self) (fun r => Row (row_t r) newPose)
     end)%meth.

(** A successive run of [update] calls; as in Python, the first
    exception ends the run. *)
Definition call : Type := R * velocity * vec3.

Definition call_time (c : call) : R := fst (fst c).

Definition update_call (c : call) : M t unit :=
  let '(time, vel, contVel) := c in update time vel contVel.

Fixpoint updates (cs : list call) : M t unit :=
  match cs with
  | [] => ret tt
  | c :: cs' => (update_call c ;; updates cs')%meth
  end.

(** The recorded history, [self.poseHist[: self.life + 1]] (the slice
    [plot] draws), and its time column. *)
Definition history (self : t) : list row :=
  take (Z.to_nat (life self + 1)) (poseHist self).

Definition timestamps (self : t) : list R := map row_t (history self).

(** The most recent row, [self.poseHist[self.life]]. *)
Definition last_row (self : t) : option row :=
  poseHist self !! Z.to_nat (life self).

(** The row an explicit Euler step from row [r] to time [time] records:
    [last_pose + (vel + contVel) * dt] with [dt = time - last_timestamp]. *)
Definition euler_row (r : row) (time : R) (vel : velocity)
    (contVel : vec3) : row :=
  Row time
      (vadd (row_pose r)
            (vscale (vadd (pad_vel vel) contVel) (time - row_t r))).

(** Shape of a swimmer object between calls. *)
Definition wf (self : t) : Prop :=
  (0 <= life self < lifespan self)%Z /\
  length (poseHist self) = Z.to_nat (lifespan self).

(** The invariant of the time column: it increases strictly and its
    last entry, the largest, is the timestamp of the current row. *)
Definition time_inv (self : t) (tl : R) : Prop :=
  wf self /\ strictly_increasing (timestamps self) /\
  (exists r, last_row self = Some r /\ row_t r = tl) /\
  (forall a, a ∈ timestamps self -> a <= tl).

End Swimmer.

(** The times of a run of calls increase strictly, starting above [t0]. *)
Fixpoint ascending_from (t0 : R) (cs : list Swimmer.call) : Prop :=
  match cs with
  | [] => True
  | c :: cs' =>
      t0 < Swimmer.call_time c /\ ascending_from (Swimmer.call_time c) cs'
  end.

(** ** controller.py *)

(** The stored errors start as [np.inf]; afterwards they hold finite
    values.  Only the operations [evaluate_convergence] applies to them are
    needed, and on [+inf] they follow IEEE 754. *)
Inductive xreal : Type :=
| Fin (r : R)
| Inf.

(** [x ** 2] *)
Definition xsq (x : xreal) : xreal :=
  match x with Fin r => Fin (r * r) | Inf => Inf end.

(** [x + y], used on squares only, so [inf - inf] never arises *)
Definition xadd (x y : xreal) : xreal :=
  match x, y with Fin a, Fin b => Fin (a + b) | _, _ => Inf end.

(** [np.sqrt(x)] *)
Definition xsqrt (x : xreal) : xreal :=
  match x with Fin r => Fin (sqrt r) | Inf => Inf end.

(** [x <= r] for a finite [r] *)
Definition xleb (x : xreal) (r : R) : bool :=
  match x with
  | Fin a => if Rle_dec a r then true else false
  | Inf => false
  end.

Inductive FlowDirection : Type := IN | OUT.

Inductive FlowOrientation : Type := CW | CCW.

(** [FlowDirection.value] *)
Definition dir_value (d : FlowDirection) : R :=
  match d with IN => -1 | OUT => 1 end.

(** [FlowOrientation.value] *)
Definition ori_value (o : FlowOrientation) : R :=
  match o with CW => -1 | CCW => 1 end.

(** What the controller uses of [flowfield.GyreFlow]: the phase state
    [(r, theta)] of a position. *)
Record GyreFlow : Type := { get_state : vec3 -> R * R }.

Module ApproachController.

(** Class attributes. *)
Definition time_to_convergence : R := 2.
Definition convergence_threshold : R := 0.01.

Record t : Type := mk {
  Kp : R;
  vel_from_thrusters : R;
  flow_model : GyreFlow;
  flow_ori : FlowOrientation;
  flow_dir : FlowDirection;
  convergence_count : Z;
  convergence_count_threshold : R;
  r_diff : xreal;
  theta_diff : xreal
}.

Definition set_r_diff (x : xreal) (self : t) : t :=
  mk (Kp self) (vel_from_thrusters self) (flow_model self) (flow_ori self)
     (flow_dir self) (convergence_count self)
     (convergence_count_threshold self) x (theta_diff self).

Definition set_theta_diff (x : xreal) (self : t) : t :=
  mk (Kp self) (vel_from_thrusters self) (flow_model self) (flow_ori self)
     (flow_dir self) (convergence_count self)
     (convergence_count_threshold self) (r_diff self) x.

Definition set_convergence_count (n : Z) (self : t) : t :=
  mk (Kp self) (vel_from_thrusters self) (flow_model self) (flow_ori self)
     (flow_dir self) n
     (convergence_count_threshold self) (r_diff self) (theta_diff self).

(** [ApproachController.__init__]; the division of the integer [2] by a
    Python float raises on zero. *)
Definition init (fm : GyreFlow) (ori : FlowOrientation)
    (dir : FlowDirection) (time_step : R) : exn + t :=
  if Req_dec_T time_step 0 then inl ZeroDivisionError
  else inr (mk 0.5 0.01 fm ori dir 0 (time_to_convergence / time_step)
               Inf Inf).

(** [np.sqrt(self.r_diff**2 + self.theta_diff**2)] *)
Definition total_err (self : t) : xreal :=
  xsqrt (xadd (xsq (r_diff self)) (xsq (theta_diff self))).

(** [ApproachController.evaluate_convergence] *)
Definition evaluate_convergence : M t bool :=
  (self <- get ;;
   let total_err := total_err self in
   (if xleb total_err convergence_threshold
    then modify (set_convergence_count (convergence_count self + 1))
    else modify (set_convergence_count 0)) ;;
   self <- get ;;
   ret (if Rge_dec (IZR (convergence_count self))
                   (convergence_count_threshold self)
        then true else false))%meth.

Section WithAngleFunctions.

(** [anglefunctions.wrap_to_pi] *)
Variable wrap_to_pi : R -> R.

(** [ApproachController.get_control_vel] *)
Definition get_control_vel (pos targ : vec3) : M t vec3 :=
  (self <- get ;;
   let '(r_mob, theta_mob) := get_state (flow_model self) pos in
   let '(r_targ, theta_targ) := get_state (flow_model self) targ in
   let err := wrap_to_pi (theta_targ - theta_mob)
              * ori_value (flow_ori self) in
   let r_des := r_targ + Kp self * err * dir_value (flow_dir self) in
   let dir := if Rgt_dec r_des r_mob then 1 else -1 in
   let control_vel :=
     smul (dir * vel_from_thrusters self)
          (Vec3 (cos theta_mob) (sin theta_mob) 0) in
   modify (set_r_diff (Fin (r_targ - r_mob))) ;;
   modify (set_theta_diff (Fin err)) ;;
   ret control_vel)%meth.

(** One pass of the simulation loop over the controller:
    [get_control_vel] on the two positions, then
    [evaluate_convergence]. *)
Definition control_step (pt : vec3 * vec3) : M t bool :=
  (get_control_vel (fst pt) (snd pt) ;; evaluate_convergence)%meth.

Fixpoint control_steps (pts : list (vec3 * vec3)) : M t (list bool) :=
  match pts with
  | [] => ret []
  | pt :: pts' =>
      (b <- control_step pt ;;
       bs <- control_steps pts' ;;
       ret (b :: bs))%meth
  end.

(** The total error [evaluate_convergence] sees after
    [get_control_vel] ran on the pair [pt]. *)
Definition step_error (self : t) (pt : vec3 * vec3) : xreal :=
  total_err (fst (get_control_vel (fst pt) (snd pt) self)).

(** The controller objects a program can hold: built by [__init__],
    then changed by the two methods only. *)
Inductive reachable : t -> Prop :=
| reach_init (fm : GyreFlow) (ori : FlowOrientation)
    (dir : FlowDirection) (time_step : R) (self : t) :
    init fm ori dir time_step = inr self -> reachable self
| reach_control (self : t) (pos targ : vec3) :
    reachable self -> reachable (fst (get_control_vel pos targ self))
| reach_evaluate (self : t) :
    reachable self -> reachable (fst (evaluate_convergence self)).

(** The control law in the words of the design: angular error,
    desired radius, sign of the thrust. *)
Definition spec_err (ori : FlowOrientation) (theta_target theta_mobile : R)
    : R :=
  wrap_to_pi (theta_target - theta_mobile)
  * match ori with CW => -1 | CCW => 1 end.

Definition spec_r_des (dir : FlowDirection) (r_target err : R) : R :=
  r_target + 0.5 * err * match dir with IN => -1 | OUT => 1 end.

Definition spec_thrust_sign (r_des r_mobile : R) : R :=
  if Rgt_dec r_des r_mobile then 1 else -1.

End WithAngleFunctions.

(** [n >= self.convergence_count_threshold], an integer against a
    float. *)
Definition count_reaches (threshold : R) (n : Z) : bool :=
  if Rge_dec (IZR n) threshold then true else false.

(** What [get_control_vel] and [evaluate_convergence] never assign. *)
Definition same_settings (a b : t) : Prop :=
  Kp a = Kp b /\ vel_from_thrusters a = vel_from_thrusters b /\
  flow_model a = flow_model b /\ flow_ori a = flow_ori b /\
  flow_dir a = flow_dir b /\
  convergence_count_threshold a = convergence_count_threshold b.

End ApproachController.

(** ** The control velocity in float64

    Lines 81 to 85 of [controller.py] in IEEE binary64 arithmetic:
    [dir * self.vel_from_thrusters * np.array((cos, sin, 0))], where [cos]
    and [sin] are the floats [np.cos(theta_mob)] and [np.sin(theta_mob)]
    returned, and the Euclidean norm of the planar part of the result. *)
Definition control_vel_f64 (dir vel_from_thrusters cos_theta sin_theta : float)
    : float * float * float :=
  let k := PrimFloat.mul dir vel_from_thrusters in
  (PrimFloat.mul k cos_theta, PrimFloat.mul k sin_theta,
   PrimFloat.mul k 0%float).

Definition planar_norm_f64 (v : float * float * float) : float :=
  let '(x, y, _) := v in
  PrimFloat.sqrt (PrimFloat.add (PrimFloat.mul x x) (PrimFloat.mul y y)).

(** The floats nearest to [0.01], [cos 1.0] and [sin 1.0]: Python prints
    them as [0.01], [0.5403023058681398] and [0.8414709848078965]. *)
Definition f64_hundredth : float := 0x1.47ae147ae147bp-7%float.
Definition f64_cos_1 : float := 0x1.14a280fb5068cp-1%float.
Definition f64_sin_1 : float := 0x1.aed548f090ceep-1%float.

(** ** Stand-ins for the modules the controller imports *)

(** [np.arctan2(y, x)] *)
Definition atan2 (y x : R) : R :=
  if Rlt_dec 0 x then atan (y / x)
  else if Rlt_dec x 0 then
    (if Rle_dec 0 y then atan (y / x) + PI else atan (y / x) - PI)
  else if Rlt_dec 0 y then PI / 2
  else if Rlt_dec y 0 then - (PI / 2)
  else 0.

(** Modelled from the spec: [flowfield.GyreFlow.get_state] is not among
    the sources. For a vortex centred at the origin the phase state of a
    position is its radius from the centre and its angle from the centre,
    radius increasing outward and angle increasing counter-clockwise. *)
Definition polar_state (pos : vec3) : R * R :=
  (sqrt (vx pos * vx pos + vy pos * vy pos), atan2 (vy pos) (vx pos)).

Definition polar_flow : GyreFlow := {| get_state := polar_state |}.

(** Modelled from the spec: [anglefunctions.wrap_to_pi] is not among the
    sources. It returns the representative of an angle in (-pi, pi]. *)
Definition wrap_to_pi_model (a : R) : R :=
  a - 2 * PI * IZR (1 - up ((PI - a) / (2 * PI))).

(** The controller [ApproachController(polar_flow, CCW, IN, 0.1)] as
    [__init__] leaves it. *)
Definition vortex_controller : ApproachController.t :=
  ApproachController.mk 0.5 0.01 polar_flow CCW IN 0
    (ApproachController.time_to_convergence / 0.1) Inf Inf.

(** ** simulation.py: [run_simulation] *)

(** [np.linalg.norm] of a velocity [dx, dy, dtheta]. *)
Definition norm3 (v : vec3) : R :=
  sqrt (vx v * vx v + vy v * vy v + vtheta v * vtheta v).

(** [int(x)] of a float: truncation toward zero (here of the real number
    the float stands for). *)
Definition py_int (x : R) : Z :=
  if Rle_dec 0 x then (up x - 1)%Z else (1 - up (- x))%Z.

(** [range(a, b)] *)
Definition py_range (a b : Z) : list Z :=
  map (fun k => (a + Z.of_nat k)%Z) (seq 0 (Z.to_nat (b - a))).

Module Simulation.

(** What ends [run_simulation] abnormally: an exception raised in one of
    the objects it drives, or the read of the local [t] before the loop
    has assigned it. *)
Inductive failure : Type :=
| Raised (e : exn)
| UnboundLocalError.

Section WithCollaborators.

(** The classes [run_simulation] takes from modules that are not among the
    sources: the flow ([GyreFlow], built from a flow model and its
    parameters, with the method [flow_func]) and the controller
    ([_CONTROLLER_TO_USE], set to a class [FBRDController] that
    [controller.py] does not define; the loop calls its two methods).
    Positions handed to them are the slices [pose[0:2]]. *)
Variables FlowSpec Flow Controller : Type.
Variable GyreFlow_new : FlowSpec -> exn + Flow.
Variable flow_func : Flow -> R * R -> velocity.
Variable Controller_new :
  Flow -> FlowOrientation -> FlowDirection -> R -> exn + Controller.
Variable get_control_vel : R * R -> R * R -> M Controller vec3.
Variable evaluate_convergence : M Controller bool.

Record SimulationParams : Type := {
  total_time_s : R;
  timestep_s : R;
  flow_spec : FlowSpec;
  flow_dir : FlowDirection;
  flow_ori : FlowOrientation
}.

Record SimulationProblem : Type := {
  simulation_params : SimulationParams;
  modboat_start_pos : vec3;
  struct_start_pos : vec3;
  id_number : Z;
  radius : R
}.

Record SimulationOutput : Type := {
  modboat : Swimmer.t;
  struct : Swimmer.t;
  flow_model : Flow;
  success : bool;
  success_time : R;
  out_id_number : Z;
  control_cost : R
}.

(** The local variables of [run_simulation] that the loop changes. *)
Record locals : Type := mk_locals {
  boat : Swimmer.t;
  strc : Swimmer.t;
  cont : Controller;
  result : bool;
  cost : R;
  t : option R
}.

Definition set_result (b : bool) (s : locals) : locals :=
  mk_locals (boat s) (strc s) (cont s) b (cost s) (t s).

Definition set_cost (c : R) (s : locals) : locals :=
  mk_locals (boat s) (strc s) (cont s) (result s) c (t s).

Definition set_t (x : R) (s : locals) : locals :=
  mk_locals (boat s) (strc s) (cont s) (result s) (cost s) (Some x).

(** A method call on one of the three objects. *)
Definition on_boat {A : Type} (m : M Swimmer.t A) : M locals A :=
  fun s =>
    let '(b, r) := m (boat s) in
    (mk_locals b (strc s) (cont s) (result s) (cost s) (t s), r).

Definition on_strc {A : Type} (m : M Swimmer.t A) : M locals A :=
  fun s =>
    let '(b, r) := m (strc s) in
    (mk_locals (boat s) b (cont s) (result s) (cost s) (t s), r).

Definition on_cont {A : Type} (m : M Controller A) : M locals A :=
  fun s =>
    let '(c, r) := m (cont s) in
    (mk_locals (boat s) (strc s) c (result s) (cost s) (t s), r).

(** [pose[0:2]] *)
Definition xy (pose : vec3) : R * R := (vx pose, vy pose).

(** The body of the loop for one value [ii]; it returns whether the loop
    is left by [break]. *)
Definition loop_body (timestep_s : R) (flow : Flow) (ii : Z) : M locals bool :=
  (let time := timestep_s * IZR ii in
   modify (set_t time) ;;
   pose_modboat <- on_boat Swimmer.get_pose ;;
   let pos_modboat := xy pose_modboat in
   pose_structure <- on_strc Swimmer.get_pose ;;
   let pos_structure := xy pose_structure in
   let vel_modboat := flow_func flow pos_modboat in
   let vel_structure := flow_func flow pos_structure in
   vel_control <- on_cont (get_control_vel pos_modboat pos_structure) ;;
   on_boat (Swimmer.update time vel_modboat vel_control) ;;
   on_strc (Swimmer.update time vel_structure vzero) ;;
   let new_cost := norm3 vel_control * timestep_s in
   modify (fun s => set_cost (cost s + new_cost) s) ;;
   converged <- on_cont evaluate_convergence ;;
   if converged : bool then (modify (set_result true) ;; ret true)
   else ret false)%meth.

(** [for ii in iis: ...] *)
Fixpoint for_loop (timestep_s : R) (flow : Flow) (iis : list Z)
    : M locals unit :=
  match iis with
  | [] => ret tt
  | ii :: rest =>
      (stop <- loop_body timestep_s flow ii ;;
       if stop : bool then ret tt else for_loop timestep_s flow rest)%meth
  end.

(** [run_simulation]. Of the triple it returns, the wall-clock duration
    is left out. *)
Definition run_simulation (sim_problem : SimulationProblem)
    : failure + (SimulationOutput * R) :=
  let sim_params := simulation_params sim_problem in
  let initial_modboat_pos := modboat_start_pos sim_problem in
  let initial_structure_pos := struct_start_pos sim_problem in
  if Req_dec_T (timestep_s sim_params) 0 then inl (Raised ZeroDivisionError)
  else
    let iters := py_int (total_time_s sim_params / timestep_s sim_params) in
    match Swimmer.init initial_modboat_pos iters with
    | inl e => inl (Raised e)
    | inr boat0 =>
    match Swimmer.init initial_structure_pos iters with
    | inl e => inl (Raised e)
    | inr strc0 =>
    match GyreFlow_new (flow_spec sim_params) with
    | inl e => inl (Raised e)
    | inr flow =>
    match Controller_new flow (flow_ori sim_params) (flow_dir sim_params)
                         (timestep_s sim_params) with
    | inl e => inl (Raised e)
    | inr cont0 =>
    match for_loop (timestep_s sim_params) flow (py_range 1 iters)
                   (mk_locals boat0 strc0 cont0 false 0 None) with
    | (_, inl e) => inl (Raised e)
    | (s, inr _) =>
        match t s with
        | None => inl UnboundLocalError
        | Some time =>
            inr (Build_SimulationOutput (boat s) (strc s) flow (result s)
                   time (id_number sim_problem) (cost s),
                 radius sim_problem)
        end
    end end end end end.

(** The time column of a swimmer that the loop has stepped [k] times:
    the [0] of the first row, then [timestep_s * ii] for [ii = 1 .. k]. *)
Definition step_times (timestep_s : R) (k : Z) : list R :=
  0 :: map (fun ii => timestep_s * IZR ii) (py_range 1 (k + 1)).

(** The state of the two swimmers between two turns of the loop, after
    [k] turns. *)
Definition after_steps (iters : Z) (timestep_s : R) (k : Z) (s : locals)
    : Prop :=
  Swimmer.wf (boat s) /\ Swimmer.wf (strc s) /\
  Swimmer.life (boat s) = k /\ Swimmer.life (strc s) = k /\
  Swimmer.lifespan (boat s) = iters /\ Swimmer.lifespan (strc s) = iters /\
  Swimmer.timestamps (boat s) = step_times timestep_s k /\
  Swimmer.timestamps (strc s) = step_times timestep_s k.

End WithCollaborators.

End Simulation.

(** A set-up to run [run_simulation] on: the flow is a solid rotation
    about the origin, the controller is [ApproachController] on
    [polar_flow], reading a position [(x, y)] as the pose [(x, y, 0)]. *)
Definition solid_rotation (flow : GyreFlow) (pos : R * R) : velocity :=
  Vel2 (- snd pos) (fst pos).

Definition pose_of_xy (pos : R * R) : vec3 := Vec3 (fst pos) (snd pos) 0.

Definition vortex_control (pos targ : R * R) : M ApproachController.t vec3 :=
  ApproachController.get_control_vel wrap_to_pi_model
    (pose_of_xy pos) (pose_of_xy targ).

Definition vortex_problem (total_time_s timestep_s : R)
    : Simulation.SimulationProblem unit :=
  Simulation.Build_SimulationProblem unit
    (Simulation.Build_SimulationParams unit total_time_s timestep_s tt IN CCW)
    (Vec3 1 0 0) (Vec3 2 0 0) 1 0.

Definition run_vortex_simulation (total_time_s timestep_s : R) :=
  Simulation.run_simulation unit GyreFlow ApproachController.t
    (fun _ => inr polar_flow) solid_rotation ApproachController.init
    vortex_control ApproachController.evaluate_convergence
    (vortex_problem total_time_s timestep_s).

(** * Properties of [Swimmer] *)

Section SwimmerFacts.

Import Swimmer.

Lemma py_index_in_range (n : nat) (i : Z) :
  (0 <= i < Z.of_nat n)%Z -> py_index n i = Some (Z.to_nat i).
Proof.
  intros [H0 H1]. unfold py_index.
  destruct (Z.leb_spec 0 i); [| lia].
  destruct (Z.ltb_spec i (Z.of_nat n)); [reflexivity | lia].
Qed.

Lemma read_row_wf (self : t) :
  wf self ->
  exists r, last_row self = Some r /\
            read_row (life self) self = (self, inr r).
Proof.
  intros [Hl Hlen]. unfold read_row, last_row.
  rewrite py_index_in_range by lia.
  destruct (poseHist self !! Z.to_nat (life self)) as [r |] eqn:E.
  - exists r. split; reflexivity.
  - apply lookup_ge_None in E. lia.
Qed.

Lemma update_alive (self : t) (time : R) (vel : velocity)
    (contVel : vec3) (r : row) :
  wf self -> (life self < lifespan self - 1)%Z ->
  last_row self = Some r ->
  update time vel contVel self =
    (mk (life self + 1) (lifespan self)
        (<[Z.to_nat (life self + 1) := euler_row r time vel contVel]>
           (poseHist self)),
     inr tt).
Proof.
  intros Hwf Hlt Hr.
  destruct (read_row_wf self Hwf) as (r' & Hr' & Hread).
  rewrite Hr in Hr'. injection Hr' as <-.
  destruct Hwf as [Hl Hlen].
  unfold update, bind, get.
  rewrite Z.geb_leb.
  destruct (Z.leb_spec (lifespan self - 1) (life self)); [lia |].
  rewrite Hread. cbn beta iota. rewrite Hread. cbn beta iota.
  unfold modify, write_row. cbn [poseHist set_poseHist set_life life lifespan].
  rewrite py_index_in_range by lia.
  destruct (poseHist self !! Z.to_nat (life self + 1)) as [q |] eqn:E.
  2:{ apply lookup_ge_None in E. lia. }
  unfold set_poseHist, set_life. cbn [poseHist life lifespan].
  rewrite length_insert, py_index_in_range by lia.
  rewrite list_lookup_insert_eq by lia.
  rewrite list_insert_insert_eq. reflexivity.
Qed.

Lemma update_exhausted (self : t) (time : R) (vel : velocity)
    (contVel : vec3) :
  (life self >= lifespan self - 1)%Z ->
  update time vel contVel self = (self, inl IndexError).
Proof.
  intros H. unfold update, bind, get.
  rewrite Z.geb_leb.
  destruct (Z.leb_spec (lifespan self - 1) (life self)); [reflexivity | lia].
Qed.

Lemma init_positive (pose : vec3) (N : Z) :
  (0 < N)%Z ->
  init pose N =
    inr (mk 0 N (<[0%nat := Row 0 pose]>
                   (replicate (Z.to_nat N) (Row 0 vzero)))).
Proof.
  intros HN. unfold init, zeros.
  destruct (Z.ltb_spec N 0); [lia |].
  rewrite length_replicate, py_index_in_range by lia.
  change (Z.to_nat 0) with 0%nat.
  rewrite lookup_replicate_2 by lia. reflexivity.
Qed.

Lemma init_inv (pose : vec3) (N : Z) (s0 : t) :
  init pose N = inr s0 ->
  (0 < N)%Z /\
  s0 = mk 0 N (<[0%nat := Row 0 pose]>
                 (replicate (Z.to_nat N) (Row 0 vzero))).
Proof.
  intros H.
  assert (HN : (0 < N)%Z).
  { unfold init, zeros in H.
    destruct (Z.ltb_spec N 0); [discriminate |].
    destruct (Z.eq_dec N 0%Z) as [-> |]; [| lia].
    cbn in H. discriminate. }
  split; [exact HN |].
  rewrite init_positive in H by exact HN. congruence.
Qed.

Lemma init_wf (pose : vec3) (N : Z) (s0 : t) :
  init pose N = inr s0 -> wf s0.
Proof.
  intros H. apply init_inv in H as [HN ->]. unfold wf. cbn.
  rewrite length_insert, length_replicate. lia.
Qed.

Lemma update_wf (self self' : t) (time : R) (vel : velocity)
    (contVel : vec3) :
  wf self -> update time vel contVel self = (self', inr tt) ->
  wf self' /\ life self' = (life self + 1)%Z /\
  lifespan self' = lifespan self.
Proof.
  intros Hwf Hup.
  destruct (Z_lt_ge_dec (life self) (lifespan self - 1)) as [Hlt | Hge].
  - destruct (read_row_wf self Hwf) as (r & Hr & _).
    rewrite (update_alive self time vel contVel r Hwf Hlt Hr) in Hup.
    injection Hup as <-. destruct Hwf as [Hl Hlen].
    unfold wf. cbn. rewrite length_insert. repeat split; lia.
  - rewrite update_exhausted in Hup by exact Hge. discriminate.
Qed.

Lemma history_snoc (self : t) (x : row) :
  wf self -> (life self < lifespan self - 1)%Z ->
  history (mk (life self + 1) (lifespan self)
              (<[Z.to_nat (life self + 1) := x]> (poseHist self))) =
  history self ++ [x].
Proof.
  intros [Hl Hlen] Hlt. unfold history. cbn [life poseHist].
  replace (Z.to_nat (life self + 1 + 1)) with (S (Z.to_nat (life self + 1)))
    by lia.
  rewrite (take_S_r _ _ x) by (apply list_lookup_insert_eq; lia).
  rewrite take_insert_ge by lia. reflexivity.
Qed.

Lemma history_length (self : t) :
  wf self -> length (history self) = Z.to_nat (life self + 1).
Proof.
  intros [Hl Hlen]. unfold history. rewrite length_take. lia.
Qed.

Lemma updates_alive (cs : list call) :
  forall self : t,
    wf self ->
    (life self + Z.of_nat (length cs) <= lifespan self - 1)%Z ->
    exists self' : t,
      updates cs self = (self', inr tt) /\ wf self' /\
      life self' = (life self + Z.of_nat (length cs))%Z /\
      lifespan self' = lifespan self.
Proof.
  induction cs as [| [[time vel] contVel] cs IH]; intros self Hwf Hlen.
  - exists self. cbn. repeat split; try apply Hwf; lia.
  - cbn [length] in Hlen.
    destruct (read_row_wf self Hwf) as (r & Hr & _).
    assert (Hlt : (life self < lifespan self - 1)%Z) by lia.
    pose proof (update_alive self time vel contVel r Hwf Hlt Hr) as Hup.
    destruct (update_wf _ _ _ _ _ Hwf Hup) as (Hwf' & Hlife' & Hspan').
    destruct (IH _ Hwf') as (s2 & Hrun & Hwf2 & Hlife2 & Hspan2).
    { rewrite Hlife', Hspan'. lia. }
    exists s2. cbn [updates update_call]. unfold bind. rewrite Hup.
    split; [exact Hrun |]. split; [exact Hwf2 |]. split.
    + rewrite Hlife2, Hlife'. cbn [length]. lia.
    + congruence.
Qed.

Lemma single_increasing (a : R) : strictly_increasing [a].
Proof.
  intros i j x y Hij Hi Hj.
  apply lookup_lt_Some in Hj. cbn in Hj. lia.
Qed.

Lemma snoc_increasing (l : list R) (x : R) :
  strictly_increasing l -> (forall a, a ∈ l -> a < x) ->
  strictly_increasing (l ++ [x]).
Proof.
  intros Hl Hx i j a b Hij Hi Hj.
  assert (Hia : l !! i = Some a).
  { apply lookup_lt_Some in Hj. rewrite length_app in Hj. cbn in Hj.
    rewrite lookup_app_l in Hi by lia. exact Hi. }
  destruct (decide (j < length l)%nat) as [Hjl | Hjl].
  - rewrite lookup_app_l in Hj by exact Hjl. exact (Hl i j a b Hij Hia Hj).
  - apply lookup_snoc_Some in Hj as [[Hjl' _] | [_ <-]]; [lia |].
    apply Hx. apply list_elem_of_lookup. exists i. exact Hia.
Qed.

Lemma init_time_inv (pose : vec3) (N : Z) (s0 : t) :
  init pose N = inr s0 -> time_inv s0 0.
Proof.
  intros H. pose proof (init_wf _ _ _ H) as Hwf.
  apply init_inv in H as [HN ->].
  assert (Hh : timestamps
                 (mk 0 N (<[0%nat := Row 0 pose]>
                            (replicate (Z.to_nat N) (Row 0 vzero)))) = [0]).
  { unfold timestamps, history. cbn [life poseHist].
    destruct (Z.to_nat N) as [| n] eqn:E; [lia |]. reflexivity. }
  repeat split; try apply Hwf.
  - rewrite Hh. apply single_increasing.
  - exists (Row 0 pose). split; [| reflexivity].
    unfold last_row. cbn [life poseHist].
    apply list_lookup_insert_eq. rewrite length_replicate. lia.
  - intros a Ha. rewrite Hh in Ha. apply list_elem_of_singleton in Ha. lra.
Qed.

Lemma update_time_inv (self self' : t) (tl time : R) (vel : velocity)
    (contVel : vec3) :
  time_inv self tl -> tl < time ->
  update time vel contVel self = (self', inr tt) ->
  time_inv self' time.
Proof.
  intros (Hwf & Hinc & (r & Hr & Hrt) & Hmax) Htime Hup.
  destruct (Z_lt_ge_dec (life self) (lifespan self - 1)) as [Hlt | Hge].
  2:{ rewrite update_exhausted in Hup by exact Hge. discriminate. }
  pose proof (update_wf _ _ _ _ _ Hwf Hup) as (Hwf' & _ & _).
  rewrite (update_alive self time vel contVel r Hwf Hlt Hr) in Hup.
  injection Hup as <-.
  assert (Hts : timestamps
                  (mk (life self + 1) (lifespan self)
                      (<[Z.to_nat (life self + 1) :=
                           euler_row r time vel contVel]> (poseHist self)))
                = timestamps self ++ [time]).
  { unfold timestamps. rewrite history_snoc by assumption.
    rewrite map_app. reflexivity. }
  repeat split; try apply Hwf'.
  - rewrite Hts. apply snoc_increasing; [exact Hinc |].
    intros a Ha. specialize (Hmax a Ha). lra.
  - exists (euler_row r time vel contVel). split; [| reflexivity].
    unfold last_row. cbn [life poseHist].
    apply list_lookup_insert_eq. destruct Hwf as [Hl Hlen]. lia.
  - intros a Ha. rewrite Hts in Ha. apply elem_of_app in Ha as [Ha | Ha].
    + specialize (Hmax a Ha). lra.
    + apply list_elem_of_singleton in Ha. lra.
Qed.

Lemma updates_time_inv (cs : list call) :
  forall (self self' : t) (tl : R),
    time_inv self tl -> ascending_from tl cs ->
    updates cs self = (self', inr tt) ->
    exists tl', time_inv self' tl'.
Proof.
  induction cs as [| [[time vel] contVel] cs IH];
    intros self self' tl Hinv Hasc Hrun.
  - cbn in Hrun. injection Hrun as <-. exists tl. exact Hinv.
  - cbn [updates update_call] in Hrun. unfold bind in Hrun.
    destruct Hasc as [Ht Hasc]. cbn in Ht, Hasc.
    destruct (update time vel contVel self) as [s1 [e | []]] eqn:Hup;
      [discriminate |].
    apply (IH s1 self' time); try assumption.
    exact (update_time_inv _ _ _ _ _ _ Hinv Ht Hup).
Qed.

Lemma updates_lifespan (cs : list call) :
  forall self self' : t,
    wf self -> updates cs self = (self', inr tt) ->
    lifespan self' = lifespan self.
Proof.
  induction cs as [| [[time vel] contVel] cs IH]; intros self self' Hwf Hrun.
  - cbn in Hrun. injection Hrun as <-. reflexivity.
  - cbn [updates update_call] in Hrun. unfold bind in Hrun.
    destruct (update time vel contVel self) as [s1 [e | []]] eqn:Hup;
      [discriminate |].
    destruct (update_wf _ _ _ _ _ Hwf Hup) as (Hwf1 & _ & Hspan).
    rewrite (IH _ _ Hwf1 Hrun). exact Hspan.
Qed.

Lemma updates_wf (cs : list call) :
  forall (self self' : t) (res : exn + unit),
    wf self -> updates cs self = (self', res) -> wf self'.
Proof.
  induction cs as [| [[time vel] contVel] cs IH]; intros self self' res Hwf Hrun.
  - cbn in Hrun. injection Hrun as <- _. exact Hwf.
  - cbn [updates update_call] in Hrun. unfold bind in Hrun.
    destruct (Z_lt_ge_dec (life self) (lifespan self - 1)) as [Hlt | Hge].
    + destruct (read_row_wf self Hwf) as (r & Hr & _).
      pose proof (update_alive self time vel contVel r Hwf Hlt Hr) as Hup.
      rewrite Hup in Hrun.
      exact (IH _ _ _ (proj1 (update_wf _ _ _ _ _ Hwf Hup)) Hrun).
    + rewrite update_exhausted in Hrun by exact Hge.
      injection Hrun as <- _. exact Hwf.
Qed.


End SwimmerFacts.

(** ** The claims about [Swimmer] *)

Section SwimmerClaims.

Import Swimmer.

(** C3. For every positive lifespan [N], a swimmer built with that
    lifespan accepts [N - 1] successive calls of [update], whatever
    their arguments, and the next call, the [N]-th, raises the
    exhaustion error ([IndexError] in the source). *)
Theorem lifespan_allows_N_minus_1_updates (N : Z) (pose : vec3)
    (cs : list call) (c : call) :
  (0 < N)%Z -> Z.of_nat (length cs) = (N - 1)%Z ->
  exists s0 s1 : t,
    init pose N = inr s0 /\
    updates cs s0 = (s1, inr tt) /\
    update_call c s1 = (s1, inl IndexError).
Proof.
  intros HN Hlen.
  pose proof (init_positive pose N HN) as Hinit.
  pose proof (init_wf _ _ _ Hinit) as Hwf.
  destruct (updates_alive cs _ Hwf) as (s1 & Hrun & Hwf1 & Hlife & Hspan).
  { cbn [life lifespan]. lia. }
  eexists. exists s1. split; [exact Hinit |]. split; [exact Hrun |].
  destruct c as [[time vel] contVel]. cbn [update_call].
  apply update_exhausted. rewrite Hlife, Hspan. cbn [life lifespan]. lia.
Qed.

Lemma lifespan_allows_N_minus_1_updates_witness :
  (0 < 3)%Z /\
  Z.of_nat (length [(1, Vel2 0 1, vzero); (2, Vel3 (Vec3 0 1 0), vzero)])
    = (3 - 1)%Z /\
  exists s0 s1 : t,
    init vzero 3 = inr s0 /\
    updates [(1, Vel2 0 1, vzero); (2, Vel3 (Vec3 0 1 0), vzero)] s0
      = (s1, inr tt) /\
    update_call (3, Vel2 0 1, vzero) s1 = (s1, inl IndexError).
Proof.
  split; [lia |]. split; [reflexivity |].
  apply (lifespan_allows_N_minus_1_updates 3 vzero
           [(1, Vel2 0 1, vzero); (2, Vel3 (Vec3 0 1 0), vzero)]
           (3, Vel2 0 1, vzero)); [lia | reflexivity].
Defined.


(** C8. On an exhausted swimmer ([life >= lifespan - 1]) [update]
    raises and leaves the object as it was: same [life], same
    [poseHist]. *)
Theorem update_exhausted_leaves_state (self : t) (time : R)
    (vel : velocity) (contVel : vec3) :
  (life self >= lifespan self - 1)%Z ->
  exists self' : t,
    update time vel contVel self = (self', inl IndexError) /\
    life self' = life self /\
    poseHist self' = poseHist self /\
    self' = self.
Proof.
  intros H. exists self.
  split; [exact (update_exhausted self time vel contVel H) |].
  repeat split.
Qed.


Lemma update_exhausted_leaves_state_witness :
  (2 >= 3 - 1)%Z /\
  exists self' : t,
    update 5 (Vel2 1 1) vzero
           (mk 2 3 [Row 0 vzero; Row 1 vzero; Row 2 vzero])
      = (self', inl IndexError) /\
    life self' = 2%Z /\
    poseHist self' = [Row 0 vzero; Row 1 vzero; Row 2 vzero] /\
    self' = mk 2 3 [Row 0 vzero; Row 1 vzero; Row 2 vzero].
Proof.
  split; [lia |].
  apply (update_exhausted_leaves_state
           (mk 2 3 [Row 0 vzero; Row 1 vzero; Row 2 vzero])
           5 (Vel2 1 1) vzero).
  cbn. lia.
Defined.

(** C6, as the code has it. After any run of successful [update] calls
    the history holds no more rows than the lifespan, and once it holds
    that many a further [update] raises and changes nothing. Its time
    column increases strictly provided every call is given a time above
    the last recorded one (the first row carries time [0]); [update]
    itself does not compare times. *)
Theorem history_bounded_and_times_increase (N : Z) (pose : vec3)
    (cs : list call) (s0 s1 : t) :
  init pose N = inr s0 ->
  updates cs s0 = (s1, inr tt) ->
  (Z.of_nat (length (history s1)) <= N)%Z /\
  (Z.of_nat (length (history s1)) = N ->
   forall c : call, update_call c s1 = (s1, inl IndexError)) /\
  (ascending_from 0 cs -> strictly_increasing (timestamps s1)).
Proof.
  intros Hinit Hrun.
  pose proof (init_wf _ _ _ Hinit) as Hwf0.
  pose proof (updates_wf cs _ _ _ Hwf0 Hrun) as Hwf1.
  pose proof (updates_lifespan cs _ _ Hwf0 Hrun) as Hspan.
  pose proof (init_time_inv _ _ _ Hinit) as Hinv0.
  apply init_inv in Hinit as [HN ->]. cbn [lifespan] in Hspan.
  rewrite (history_length _ Hwf1).
  split; [destruct Hwf1; lia |]. split.
  - intros Hfull [[time vel] contVel]. cbn [update_call].
    apply update_exhausted. destruct Hwf1. lia.
  - intros Hasc.
    destruct (updates_time_inv cs _ _ _ Hinv0 Hasc Hrun)
      as (tl & _ & Hinc & _ & _).
    exact Hinc.
Qed.

Lemma history_bounded_and_times_increase_witness :
  exists s0 s1 : t,
    init vzero 2 = inr s0 /\
    updates [(1, Vel2 0 1, vzero)] s0 = (s1, inr tt) /\
    (Z.of_nat (length (history s1)) <= 2)%Z /\
    (Z.of_nat (length (history s1)) = 2%Z ->
     forall c : call, update_call c s1 = (s1, inl IndexError)) /\
    (ascending_from 0 [(1, Vel2 0 1, vzero)] ->
     strictly_increasing (timestamps s1)).
Proof.
  eexists. eexists.
  assert (Hinit : init vzero 2 = inr (mk 0 2 [Row 0 vzero; Row 0 vzero]))
    by reflexivity.
  split; [exact Hinit |]. split; [reflexivity |].
  refine (history_bounded_and_times_increase 2 vzero
            [(1, Vel2 0 1, vzero)] _ _ Hinit _).
  reflexivity.
Defined.

(** C6, as stated, fails: a call with the time of the current row
    succeeds and records that time a second time. *)
Lemma timestamps_may_repeat :
  exists s0 s1 : t,
    init vzero 3 = inr s0 /\
    updates [(0, Vel3 vzero, vzero)] s0 = (s1, inr tt) /\
    timestamps s1 = [0; 0] /\
    ~ strictly_increasing (timestamps s1).
Proof.
  eexists. eexists.
  split; [reflexivity |]. split; [reflexivity |].
  split; [reflexivity |].
  intros H. specialize (H 0%nat 1%nat 0 0). cbn in H.
  assert (0 < 0) by (apply H; [lia | reflexivity | reflexivity]).
  lra.
Qed.

End SwimmerClaims.

(** * Properties of [ApproachController] *)

Section ControllerFacts.

Import ApproachController.

Variable wrap_to_pi : R -> R.

(** [get_control_vel] in one piece: the object it leaves and the
    velocity it returns. *)
Lemma get_control_vel_unfold (self : t) (pos targ : vec3) :
  get_control_vel wrap_to_pi pos targ self =
    (let r_mob := fst (get_state (flow_model self) pos) in
     let theta_mob := snd (get_state (flow_model self) pos) in
     let r_targ := fst (get_state (flow_model self) targ) in
     let theta_targ := snd (get_state (flow_model self) targ) in
     let err := wrap_to_pi (theta_targ - theta_mob)
                * ori_value (flow_ori self) in
     let r_des := r_targ + Kp self * err * dir_value (flow_dir self) in
     let dir := if Rgt_dec r_des r_mob then 1 else -1 in
     (mk (Kp self) (vel_from_thrusters self) (flow_model self)
         (flow_ori self) (flow_dir self) (convergence_count self)
         (convergence_count_threshold self)
         (Fin (r_targ - r_mob)) (Fin err),
      inr (smul (dir * vel_from_thrusters self)
                (Vec3 (cos theta_mob) (sin theta_mob) 0)))).
Proof.
  unfold get_control_vel, bind, get.
  destruct (get_state (flow_model self) pos) as [r_mob theta_mob].
  destruct (get_state (flow_model self) targ) as [r_targ theta_targ].
  reflexivity.
Qed.

Lemma get_control_vel_settings (self : t) (pos targ : vec3) :
  same_settings (fst (get_control_vel wrap_to_pi pos targ self)) self /\
  convergence_count (fst (get_control_vel wrap_to_pi pos targ self))
    = convergence_count self.
Proof.
  rewrite get_control_vel_unfold. cbn. unfold same_settings. cbn.
  repeat split.
Qed.

Lemma evaluate_convergence_unfold (self : t) :
  evaluate_convergence self =
    (let n := if xleb (total_err self) convergence_threshold
              then (convergence_count self + 1)%Z else 0%Z in
     (set_convergence_count n self,
      inr (if Rge_dec (IZR n) (convergence_count_threshold self)
           then true else false))).
Proof.
  unfold evaluate_convergence, bind, get, modify, ret.
  destruct (xleb (total_err self) convergence_threshold); reflexivity.
Qed.

Lemma evaluate_convergence_settings (self : t) :
  same_settings (fst (evaluate_convergence self)) self.
Proof.
  rewrite evaluate_convergence_unfold. cbn. unfold same_settings. cbn.
  repeat split.
Qed.

Lemma init_unfold (fm : GyreFlow) (ori : FlowOrientation)
    (dir : FlowDirection) (time_step : R) :
  time_step <> 0 ->
  init fm ori dir time_step =
    inr (mk 0.5 0.01 fm ori dir 0 (time_to_convergence / time_step)
            Inf Inf).
Proof.
  intros H. unfold init. destruct (Req_dec_T time_step 0); [contradiction |].
  reflexivity.
Qed.

Lemma init_inr (fm : GyreFlow) (ori : FlowOrientation)
    (dir : FlowDirection) (time_step : R) (self : t) :
  init fm ori dir time_step = inr self ->
  time_step <> 0 /\
  self = mk 0.5 0.01 fm ori dir 0 (time_to_convergence / time_step)
            Inf Inf.
Proof.
  unfold init. destruct (Req_dec_T time_step 0); [discriminate |].
  intros H. injection H as <-. split; [assumption | reflexivity].
Qed.

Lemma reachable_constants (self : t) :
  reachable wrap_to_pi self ->
  Kp self = 0.5 /\ vel_from_thrusters self = 0.01.
Proof.
  induction 1 as [fm ori dir ts self Hinit | self pos targ _ IH | self _ IH].
  - apply init_inr in Hinit as [_ ->]. split; reflexivity.
  - destruct (get_control_vel_settings self pos targ) as [(HK & Hv & _) _].
    rewrite HK, Hv. exact IH.
  - destruct (evaluate_convergence_settings self) as (HK & Hv & _).
    rewrite HK, Hv. exact IH.
Qed.

Lemma control_step_unfold (self : t) (pt : vec3 * vec3) :
  control_step wrap_to_pi pt self =
    evaluate_convergence
      (fst (get_control_vel wrap_to_pi (fst pt) (snd pt) self)).
Proof.
  unfold control_step, bind. rewrite get_control_vel_unfold. reflexivity.
Qed.

Lemma step_error_settings (a b : t) (pt : vec3 * vec3) :
  same_settings a b ->
  step_error wrap_to_pi a pt = step_error wrap_to_pi b pt.
Proof.
  intros (_ & _ & Hfm & Hori & _). unfold step_error.
  rewrite !get_control_vel_unfold. cbn. unfold total_err. cbn.
  rewrite Hfm, Hori. reflexivity.
Qed.

Lemma same_settings_trans (a b c : t) :
  same_settings a b -> same_settings b c -> same_settings a c.
Proof.
  unfold same_settings. intros (?&?&?&?&?&?) (?&?&?&?&?&?).
  repeat split; congruence.
Qed.

(** A pass whose total error is within the threshold adds one to the
    counter; any other pass sets it to [0]. *)
Lemma control_step_count (self : t) (pt : vec3 * vec3) :
  exists self' : t,
    let n := if xleb (step_error wrap_to_pi self pt) convergence_threshold
             then (convergence_count self + 1)%Z else 0%Z in
    control_step wrap_to_pi pt self =
      (self', inr (count_reaches (convergence_count_threshold self) n)) /\
    convergence_count self' = n /\
    same_settings self' self.
Proof.
  rewrite control_step_unfold, evaluate_convergence_unfold.
  destruct (get_control_vel_settings self (fst pt) (snd pt))
    as [Hset Hcount].
  fold (step_error wrap_to_pi self pt). rewrite Hcount.
  destruct Hset as (HK & Hv & Hfm & Hori & Hdir & Hthr).
  eexists. cbn zeta. split; [rewrite Hthr; reflexivity |].
  split; [reflexivity |].
  unfold same_settings. cbn. repeat split; assumption.
Qed.

Lemma control_steps_cons (self self1 : t) (pt : vec3 * vec3)
    (pts : list (vec3 * vec3)) (b : bool) :
  control_step wrap_to_pi pt self = (self1, inr b) ->
  control_steps wrap_to_pi (pt :: pts) self =
    match control_steps wrap_to_pi pts self1 with
    | (self2, inr bs) => (self2, inr (b :: bs))
    | (self2, inl e) => (self2, inl e)
    end.
Proof.
  intros H. cbn [control_steps]. unfold bind at 1. rewrite H.
  unfold bind, ret. destruct (control_steps wrap_to_pi pts self1) as [s2 [e | bs]];
    reflexivity.
Qed.

(** A run of passes never raises and gives one answer per pass. *)
Lemma control_steps_total (pts : list (vec3 * vec3)) :
  forall self : t,
    exists (self' : t) (bs : list bool),
      control_steps wrap_to_pi pts self = (self', inr bs) /\
      length bs = length pts /\ same_settings self' self.
Proof.
  induction pts as [| pt pts IH]; intros self.
  - exists self, []. cbn. unfold same_settings. repeat split.
  - destruct (control_step_count self pt) as (s1 & Hstep & _ & Hset1).
    cbn zeta in Hstep.
    destruct (IH s1) as (s2 & bs & Hrun & Hlen & Hset2).
    rewrite (control_steps_cons _ _ _ _ _ Hstep), Hrun.
    eexists. eexists. split; [reflexivity |].
    split; [cbn; congruence |].
    exact (same_settings_trans _ _ _ Hset2 Hset1).
Qed.

Lemma control_steps_app (pts1 pts2 : list (vec3 * vec3)) :
  forall (self self1 self2 : t) (bs1 bs2 : list bool),
    control_steps wrap_to_pi pts1 self = (self1, inr bs1) ->
    control_steps wrap_to_pi pts2 self1 = (self2, inr bs2) ->
    control_steps wrap_to_pi (pts1 ++ pts2) self = (self2, inr (bs1 ++ bs2)).
Proof.
  induction pts1 as [| pt pts1 IH]; intros self self1 self2 bs1 bs2 H1 H2.
  - cbn in H1. injection H1 as <- <-. exact H2.
  - destruct (control_step_count self pt) as (s1 & Hstep & _ & _).
    cbn zeta in Hstep.
    rewrite (control_steps_cons _ _ _ _ _ Hstep) in H1.
    destruct (control_steps wrap_to_pi pts1 s1) as [s1' [e | bs1']] eqn:E;
      [discriminate |].
    injection H1 as <- <-.
    cbn [app]. rewrite (control_steps_cons _ _ _ _ _ Hstep).
    rewrite (IH _ _ _ _ _ E H2). reflexivity.
Qed.





End ControllerFacts.

(** ** The claims about [ApproachController] *)

Section ControllerClaims.

Import ApproachController.

Variable wrap_to_pi : R -> R.

(** C1, as the code has it. The velocity [get_control_vel] returns is
    a thrust of fixed magnitude along the phase angle [theta_mob] that
    the flow model's [get_state] gives for the mobile position:
    [dir * vel_from_thrusters * (cos theta_mob, sin theta_mob, 0)]. *)
Theorem control_vel_along_phase_angle (self : t) (pos targ : vec3) :
  let theta_mob := snd (get_state (flow_model self) pos) in
  exists (self' : t) (dir : R),
    (dir = 1 \/ dir = -1) /\
    get_control_vel wrap_to_pi pos targ self =
      (self',
       inr (smul (dir * vel_from_thrusters self)
                 (Vec3 (cos theta_mob) (sin theta_mob) 0))).
Proof.
  intros theta_mob. rewrite get_control_vel_unfold. cbn zeta.
  eexists. eexists. split; [| reflexivity].
  destruct (Rgt_dec _ _); [left | right]; reflexivity.
Qed.

(** C2. On a controller built by [__init__], [get_control_vel] follows
    the control law of the design: angular error
    [wrap_to_pi(theta_targ - theta_mob) * orientation_sign], desired
    radius [r_targ + Kp * err * direction_sign], thrust sign [+1] when
    the desired radius exceeds the mobile radius and [-1] otherwise,
    with [Kp = 0.5] and thruster speed [0.01]. *)
Theorem control_law (self : t) (pos targ : vec3) :
  reachable wrap_to_pi self ->
  let r_mobile := fst (get_state (flow_model self) pos) in
  let theta_mobile := snd (get_state (flow_model self) pos) in
  let r_target := fst (get_state (flow_model self) targ) in
  let theta_target := snd (get_state (flow_model self) targ) in
  let err := spec_err wrap_to_pi (flow_ori self) theta_target theta_mobile in
  let r_des := spec_r_des (flow_dir self) r_target err in
  let thrust_sign := spec_thrust_sign r_des r_mobile in
  Kp self = 0.5 /\ vel_from_thrusters self = 0.01 /\
  exists self' : t,
    get_control_vel wrap_to_pi pos targ self =
      (self',
       inr (smul (thrust_sign * 0.01)
                 (Vec3 (cos theta_mobile) (sin theta_mobile) 0))) /\
    r_diff self' = Fin (r_target - r_mobile) /\
    theta_diff self' = Fin err.
Proof.
  intros Hreach. destruct (reachable_constants _ _ Hreach) as [HK Hv].
  cbn zeta. split; [exact HK |]. split; [exact Hv |].
  rewrite get_control_vel_unfold. cbn zeta. rewrite HK, Hv.
  eexists. split; [reflexivity |]. split; reflexivity.
Qed.

(** C9. [get_control_vel] assigns [r_diff] and [theta_diff] and nothing
    else: the dwell counter, its threshold, the gain, the thruster
    speed, the flow model and the two sign settings are as before. *)
Theorem get_control_vel_frame (self : t) (pos targ : vec3) :
  exists (self' : t) (v : vec3) (rd td : xreal),
    get_control_vel wrap_to_pi pos targ self = (self', inr v) /\
    self' = set_theta_diff td (set_r_diff rd self) /\
    convergence_count self' = convergence_count self /\
    convergence_count_threshold self' = convergence_count_threshold self /\
    Kp self' = Kp self /\
    vel_from_thrusters self' = vel_from_thrusters self /\
    flow_model self' = flow_model self /\
    flow_ori self' = flow_ori self /\
    flow_dir self' = flow_dir self.
Proof.
  rewrite get_control_vel_unfold. cbn zeta.
  eexists. eexists. eexists. eexists.
  split; [reflexivity |]. split; [reflexivity |].
  cbn. repeat split.
Qed.

(** C10, as the code has it. On a controller built by [__init__], the
    velocity [get_control_vel] returns has angular rate [0] and planar
    part [dir * 0.01 * (cos theta_mob, sin theta_mob)] with [dir] one of
    [+1] and [-1]; so it is never the zero vector, whatever the errors
    are. *)
Theorem control_vel_is_signed_thrust (self self' : t) (pos targ v : vec3) :
  reachable wrap_to_pi self ->
  get_control_vel wrap_to_pi pos targ self = (self', inr v) ->
  vtheta v = 0 /\
  (exists dir : R,
      (dir = 1 \/ dir = -1) /\
      vx v = dir * 0.01 * cos (snd (get_state (flow_model self) pos)) /\
      vy v = dir * 0.01 * sin (snd (get_state (flow_model self) pos))) /\
  v <> vzero.
Proof.
  intros Hreach Hv. destruct (reachable_constants _ _ Hreach) as [_ Hs].
  rewrite get_control_vel_unfold in Hv. cbn zeta in Hv.
  injection Hv as _ <-. rewrite Hs.
  set (theta := snd (get_state (flow_model self) pos)).
  set (dir := if Rgt_dec _ _ then 1 else -1).
  assert (Hdir : dir = 1 \/ dir = -1)
    by (subst dir; destruct (Rgt_dec _ _); [left | right]; reflexivity).
  cbn [smul vx vy vtheta].
  split; [lra |]. split.
  - exists dir. split; [exact Hdir |]. split; reflexivity.
  - intros Hz. unfold vzero in Hz. injection Hz as Hx Hy _.
    pose proof (sin2_cos2 theta) as Hsc. unfold Rsqr in Hsc.
    assert (Hc : cos theta = 0) by (destruct Hdir as [Hd | Hd]; rewrite Hd in Hx; lra).
    assert (Hsn : sin theta = 0) by (destruct Hdir as [Hd | Hd]; rewrite Hd in Hy; lra).
    rewrite Hc, Hsn in Hsc. lra.
Qed.

(** C7. A controller fresh from [__init__], built with a time step (a
    positive real number), answers [False] to [evaluate_convergence]: its
    stored errors are infinite, so the counter stays at [0], below the
    threshold [2 / time_step]. *)
Theorem fresh_controller_not_converged (fm : GyreFlow)
    (ori : FlowOrientation) (dir : FlowDirection) (time_step : R)
    (self : t) :
  0 < time_step ->
  init fm ori dir time_step = inr self ->
  r_diff self = Inf /\ theta_diff self = Inf /\
  exists self' : t,
    evaluate_convergence self = (self', inr false) /\
    convergence_count self' = 0%Z.
Proof.
  intros Hpos Hinit. apply init_inr in Hinit as [_ ->].
  split; [reflexivity |]. split; [reflexivity |].
  rewrite evaluate_convergence_unfold. cbn.
  destruct (Rge_dec 0 (time_to_convergence / time_step)) as [Hge | _].
  - exfalso. unfold time_to_convergence in Hge.
    assert (0 < 2 / time_step) by (apply Rdiv_lt_0_compat; lra). lra.
  - eexists. split; reflexivity.
Qed.


End ControllerClaims.

(** * The claims on a concrete vortex

    The flow model is [polar_flow], the angle wrap is [wrap_to_pi_model]. *)

Section ConcreteVortex.

Import ApproachController.

Lemma wrap_to_pi_model_0 : wrap_to_pi_model 0 = 0.
Proof.
  unfold wrap_to_pi_model.
  pose proof PI_RGT_0 as Hpi.
  replace ((PI - 0) / (2 * PI)) with (/ 2) by (field; lra).
  rewrite <- (tech_up (/ 2) 1) by lra.
  change (1 - 1)%Z with 0%Z. lra.
Qed.

Lemma wrap_to_pi_model_range (a : R) :
  - PI < wrap_to_pi_model a <= PI.
Proof.
  unfold wrap_to_pi_model.
  pose proof PI_RGT_0 as Hpi.
  destruct (archimed ((PI - a) / (2 * PI))) as [Hup1 Hup2].
  set (k := up ((PI - a) / (2 * PI))) in *.
  rewrite minus_IZR.
  assert (Heq : (PI - a) / (2 * PI) * (2 * PI) = PI - a) by (field; lra).
  assert (H1 : PI - a < IZR k * (2 * PI)).
  { rewrite <- Heq. apply Rmult_lt_compat_r; lra. }
  assert (H2 : IZR k * (2 * PI) <= PI - a + 2 * PI).
  { rewrite <- Heq.
    replace ((PI - a) / (2 * PI) * (2 * PI) + 2 * PI)
      with (((PI - a) / (2 * PI) + 1) * (2 * PI)) by lra.
    apply Rmult_le_compat_r; lra. }
  split; lra.
Qed.

Lemma atan2_pos_x_axis (x : R) : 0 < x -> atan2 0 x = 0.
Proof.
  intros Hx. unfold atan2. destruct (Rlt_dec 0 x); [| contradiction].
  replace (0 / x) with 0 by (field; lra). apply atan_0.
Qed.

Lemma atan2_pos_y_axis (y : R) : 0 < y -> atan2 y 0 = PI / 2.
Proof.
  intros Hy. unfold atan2.
  destruct (Rlt_dec 0 0); [lra |].
  destruct (Rlt_dec 0 y); [reflexivity | contradiction].
Qed.

Lemma polar_state_x_axis (x theta : R) :
  0 < x -> polar_state (Vec3 x 0 theta) = (x, 0).
Proof.
  intros Hx. unfold polar_state. cbn [vx vy].
  rewrite atan2_pos_x_axis by exact Hx.
  replace (x * x + 0 * 0) with (x * x) by lra.
  rewrite sqrt_square by lra. reflexivity.
Qed.

Lemma polar_state_y_axis (y theta : R) :
  0 < y -> polar_state (Vec3 0 y theta) = (y, PI / 2).
Proof.
  intros Hy. unfold polar_state. cbn [vx vy].
  rewrite atan2_pos_y_axis by exact Hy.
  replace (0 * 0 + y * y) with (y * y) by lra.
  rewrite sqrt_square by lra. reflexivity.
Qed.

Lemma init_vortex_controller :
  init polar_flow CCW IN 0.1 = inr vortex_controller.
Proof. apply init_unfold. lra. Qed.

Lemma reachable_vortex_controller :
  reachable wrap_to_pi_model vortex_controller.
Proof. exact (reach_init _ _ _ _ _ _ init_vortex_controller). Qed.

(** Two swimmers on the positive x axis, at radii [a] and [b]: the
    phase error is [0] and the total error is [|b - a|]. *)
Lemma step_error_x_axis (self : t) (a b : R) :
  flow_model self = polar_flow -> 0 < a -> a <= b ->
  step_error wrap_to_pi_model self (Vec3 a 0 0, Vec3 b 0 0) = Fin (b - a).
Proof.
  intros Hfm Ha Hab. unfold step_error. rewrite get_control_vel_unfold.
  cbn [fst snd]. rewrite Hfm. cbn [get_state polar_flow].
  rewrite !polar_state_x_axis by lra. cbn.
  unfold total_err. cbn. f_equal.
  replace (0 - 0) with 0 by lra. rewrite wrap_to_pi_model_0.
  replace ((b - a) * (b - a)
           + 0 * ori_value (flow_ori self) * (0 * ori_value (flow_ori self)))
    with ((b - a) * (b - a)) by lra.
  apply sqrt_square. lra.
Qed.

(** C1, as stated, fails. The mobile swimmer sits at [(0, 1)] with
    heading [0]; its phase angle is [pi/2]. The thrust comes out along
    the y axis, [(0, -0.01, 0)], while a thrust along the heading would
    lie on the x axis, whatever its sign. *)
Lemma thrust_follows_phase_not_heading :
  exists self' : t,
    get_control_vel wrap_to_pi_model (Vec3 0 1 0) (Vec3 0 1 0)
                    vortex_controller
      = (self', inr (Vec3 0 (-0.01) 0)) /\
    forall thrust_sign : R,
      Vec3 0 (-0.01) 0 <>
      smul (thrust_sign * vel_from_thrusters vortex_controller)
           (Vec3 (cos (vtheta (Vec3 0 1 0))) (sin (vtheta (Vec3 0 1 0))) 0).
Proof.
  eexists. split.
  - rewrite get_control_vel_unfold. unfold vortex_controller.
    cbn [flow_model get_state polar_flow].
    rewrite !polar_state_y_axis by lra. cbn [fst snd]. cbn zeta.
    replace (PI / 2 - PI / 2) with 0 by lra. rewrite wrap_to_pi_model_0.
    cbn [Kp vel_from_thrusters flow_ori flow_dir ori_value dir_value].
    destruct (Rgt_dec (1 + 0.5 * (0 * 1) * -1) 1) as [Hgt | _]; [lra |].
    rewrite cos_PI2, sin_PI2. unfold smul. cbn [vx vy vtheta].
    f_equal. f_equal. f_equal; lra.
  - intros thrust_sign Heq. unfold vortex_controller in Heq.
    cbn [vtheta vel_from_thrusters] in Heq.
    rewrite cos_0, sin_0 in Heq. unfold smul in Heq. cbn in Heq.
    injection Heq as _ Hy. lra.
Qed.

Lemma control_law_witness :
  reachable wrap_to_pi_model vortex_controller /\
  Kp vortex_controller = 0.5 /\
  vel_from_thrusters vortex_controller = 0.01 /\
  exists self' : t,
    get_control_vel wrap_to_pi_model (Vec3 1 0 0) (Vec3 2 0 0)
                    vortex_controller
      = (self', inr (smul (1 * 0.01) (Vec3 (cos 0) (sin 0) 0))) /\
    r_diff self' = Fin (2 - 1) /\
    theta_diff self' = Fin (wrap_to_pi_model (0 - 0) * 1).
Proof.
  split; [exact reachable_vortex_controller |].
  pose proof (control_law wrap_to_pi_model vortex_controller
                (Vec3 1 0 0) (Vec3 2 0 0) reachable_vortex_controller)
    as H.
  unfold vortex_controller in H.
  cbn [flow_model flow_ori flow_dir get_state polar_flow] in H.
  rewrite !polar_state_x_axis in H by lra.
  cbn [fst snd] in H. cbn zeta in H.
  unfold spec_thrust_sign, spec_r_des, spec_err in H.
  replace (0 - 0) with 0 in * by lra.
  rewrite wrap_to_pi_model_0 in *.
  destruct (Rgt_dec (2 + 0.5 * (0 * 1) * -1) 1) as [_ | Hn]; [| lra].
  exact H.
Defined.

Lemma control_vel_is_signed_thrust_witness :
  exists (self' : t) (v : vec3),
    reachable wrap_to_pi_model vortex_controller /\
    get_control_vel wrap_to_pi_model (Vec3 0 1 0) (Vec3 0 2 0)
                    vortex_controller = (self', inr v) /\
    vtheta v = 0 /\
    (exists dir : R,
        (dir = 1 \/ dir = -1) /\
        vx v = dir * 0.01 * cos (PI / 2) /\
        vy v = dir * 0.01 * sin (PI / 2)) /\
    v <> vzero.
Proof.
  destruct (get_control_vel_frame wrap_to_pi_model vortex_controller
              (Vec3 0 1 0) (Vec3 0 2 0))
    as (self' & v & _ & _ & Hrun & _).
  exists self', v.
  split; [exact reachable_vortex_controller |]. split; [exact Hrun |].
  pose proof (control_vel_is_signed_thrust wrap_to_pi_model vortex_controller
                self' (Vec3 0 1 0) (Vec3 0 2 0) v
                reachable_vortex_controller Hrun) as H.
  unfold vortex_controller in H. cbn [flow_model get_state polar_flow] in H.
  rewrite polar_state_y_axis in H by lra. cbn [snd] in H. exact H.
Defined.

(** C10, as stated, fails in the arithmetic the code runs in. At the phase
    angle [1.0] and with thrust sign [+1] the velocity is
    [0.01 * (cos 1.0, sin 1.0, 0)] in float64, and the norm of its planar
    part is [0.010000000000000002], not the thruster speed [0.01]; the
    same holds with thrust sign [-1]. *)
Lemma control_vel_norm_is_inexact :
  planar_norm_f64 (control_vel_f64 1 f64_hundredth f64_cos_1 f64_sin_1)
    = 0x1.47ae147ae147cp-7%float /\
  PrimFloat.eqb
    (planar_norm_f64 (control_vel_f64 1 f64_hundredth f64_cos_1 f64_sin_1))
    f64_hundredth = false /\
  PrimFloat.eqb
    (planar_norm_f64
       (control_vel_f64 (-1) f64_hundredth f64_cos_1 f64_sin_1))
    f64_hundredth = false.
Proof. split; [| split]; vm_compute; reflexivity. Qed.

Lemma fresh_controller_not_converged_witness :
  0 < 0.1 /\
  init polar_flow CCW IN 0.1 = inr vortex_controller /\
  r_diff vortex_controller = Inf /\ theta_diff vortex_controller = Inf /\
  exists self' : t,
    evaluate_convergence vortex_controller = (self', inr false) /\
    convergence_count self' = 0%Z.
Proof.
  assert (Hpos : 0 < 0.1) by lra.
  split; [exact Hpos |]. split; [exact init_vortex_controller |].
  exact (fresh_controller_not_converged polar_flow CCW IN 0.1
           vortex_controller Hpos init_vortex_controller).
Defined.

(** Where the sign of the time step matters: [__init__] does not check
    it, and with the value [-1] the threshold is [2 / -1 = -2], which the
    fresh counter [0] already reaches. *)
Lemma negative_time_step_converges_at_once :
  exists self self' : t,
    init polar_flow CCW IN (-1) = inr self /\
    r_diff self = Inf /\ theta_diff self = Inf /\
    evaluate_convergence self = (self', inr true).
Proof.
  eexists. eexists. split; [apply init_unfold; lra |].
  split; [reflexivity |]. split; [reflexivity |].
  rewrite evaluate_convergence_unfold. cbn.
  destruct (Rge_dec 0 (time_to_convergence / -1)) as [_ | Hn].
  - reflexivity.
  - exfalso. apply Hn. unfold time_to_convergence. lra.
Qed.


End ConcreteVortex.

(** * Further properties of [Swimmer] *)

Section SwimmerMore.

Import Swimmer.

Lemma updates_app (cs1 cs2 : list call) :
  forall self : t,
    updates (cs1 ++ cs2) self =
      match updates cs1 self with
      | (self1, inr _) => updates cs2 self1
      | (self1, inl e) => (self1, inl e)
      end.
Proof.
  induction cs1 as [| c cs1 IH]; intros self.
  - reflexivity.
  - cbn [app updates]. unfold bind.
    destruct (update_call c self) as [s1 [e | []]]; [reflexivity |].
    apply IH.
Qed.

Lemma update_history_prefix (self self' : t) (time : R) (vel : velocity)
    (contVel : vec3) (res : exn + unit) :
  wf self -> update time vel contVel self = (self', res) ->
  wf self' /\ history self `prefix_of` history self'.
Proof.
  intros Hwf Hup.
  destruct (Z_lt_ge_dec (life self) (lifespan self - 1)) as [Hlt | Hge].
  - destruct (read_row_wf self Hwf) as (r & Hr & _).
    pose proof (update_alive self time vel contVel r Hwf Hlt Hr) as Hok.
    rewrite Hok in Hup. injection Hup as <- <-.
    split; [exact (proj1 (update_wf _ _ _ _ _ Hwf Hok)) |].
    rewrite history_snoc by assumption. apply prefix_app_r. reflexivity.
  - rewrite update_exhausted in Hup by exact Hge. injection Hup as <- <-.
    split; [exact Hwf | reflexivity].
Qed.

(** The first row of a fresh swimmer holds time [0] and the pose given;
    every other row is still the zero row of [np.zeros]. *)
Lemma init_rows (pose : vec3) (N : Z) :
  (0 < N)%Z ->
  <[0%nat := Row 0 pose]> (replicate (Z.to_nat N) (Row 0 vzero)) =
  Row 0 pose :: replicate (Z.to_nat N - 1) (Row 0 vzero).
Proof.
  intros HN. destruct (Z.to_nat N) as [| n] eqn:E; [lia |].
  cbn. rewrite Nat.sub_0_r. reflexivity.
Qed.

(** X1. [Swimmer(pose, lifespan)] raises [ValueError] on a negative
    lifespan (from [np.zeros]) and [IndexError] on lifespan [0] (row [0]
    does not exist); on a positive lifespan it gives [life = 0] and a
    buffer of [lifespan] rows, the first [(0, pose)], the others zero. *)
Theorem init_by_lifespan (pose : vec3) (N : Z) :
  init pose N =
    if (N <? 0)%Z then inl ValueError
    else if (N =? 0)%Z then inl IndexError
    else inr (mk 0 N (Row 0 pose
                        :: replicate (Z.to_nat N - 1) (Row 0 vzero))).
Proof.
  destruct (Z.ltb_spec N 0) as [Hneg | Hnn].
  - unfold init, zeros. destruct (Z.ltb_spec N 0); [reflexivity | lia].
  - destruct (Z.eqb_spec N 0) as [-> | Hne].
    + reflexivity.
    + rewrite init_positive by lia. rewrite init_rows by lia. reflexivity.
Qed.

Lemma get_pose_wf (self : t) :
  wf self ->
  exists r : row,
    last_row self = Some r /\ get_pose self = (self, inr (row_pose r)).
Proof.
  intros Hwf. destruct (read_row_wf self Hwf) as (r & Hr & Hread).
  exists r. split; [exact Hr |].
  unfold get_pose, bind, get. rewrite Hread. reflexivity.
Qed.

(** X2. On a well-formed swimmer [get_pose] does not raise, changes
    nothing and returns the pose of row [life]. *)
Theorem get_pose_reads_current_row (self : t) :
  wf self ->
  exists r : row,
    last_row self = Some r /\ get_pose self = (self, inr (row_pose r)).
Proof.
  intros Hwf. destruct (get_pose_wf self Hwf) as (r & Hr & Hget).
  exists r. split; [exact Hr | exact Hget].
Qed.

Lemma get_pose_reads_current_row_witness :
  wf (mk 1 3 [Row 0 vzero; Row 1 (Vec3 4 5 6); Row 0 vzero]) /\
  exists r : row,
    last_row (mk 1 3 [Row 0 vzero; Row 1 (Vec3 4 5 6); Row 0 vzero])
      = Some r /\
    get_pose (mk 1 3 [Row 0 vzero; Row 1 (Vec3 4 5 6); Row 0 vzero])
      = (mk 1 3 [Row 0 vzero; Row 1 (Vec3 4 5 6); Row 0 vzero],
         inr (row_pose r)).
Proof.
  assert (Hwf : wf (mk 1 3 [Row 0 vzero; Row 1 (Vec3 4 5 6); Row 0 vzero])).
  { split; [cbn; lia | reflexivity]. }
  split; [exact Hwf |].
  exact (get_pose_reads_current_row _ Hwf).
Defined.

(** X3. Right after construction [get_pose] returns the pose the
    swimmer was built with. *)
Theorem get_pose_after_init (pose : vec3) (N : Z) (s0 : t) :
  init pose N = inr s0 -> get_pose s0 = (s0, inr pose).
Proof.
  intros Hinit. pose proof (init_wf _ _ _ Hinit) as Hwf.
  destruct (read_row_wf s0 Hwf) as (r & Hr & Hread).
  unfold get_pose, bind, get. rewrite Hread. cbn.
  apply init_inv in Hinit as [HN ->].
  unfold last_row in Hr. cbn [life poseHist] in Hr.
  rewrite list_lookup_insert_eq in Hr by (rewrite length_replicate; lia).
  injection Hr as <-. reflexivity.
Qed.

Lemma get_pose_after_init_witness :
  exists s0 : t,
    init (Vec3 32 0 0) 5 = inr s0 /\ get_pose s0 = (s0, inr (Vec3 32 0 0)).
Proof.
  eexists. split; [reflexivity |].
  apply (get_pose_after_init (Vec3 32 0 0) 5). reflexivity.
Defined.

(** X4. After an [update] that did not raise, [get_pose] returns the
    pose just recorded: the previous pose advanced by
    [(vel + contVel) * (t - previous time)]. *)
Theorem get_pose_after_update (self self' : t) (time : R) (vel : velocity)
    (contVel : vec3) (r : row) :
  wf self -> last_row self = Some r ->
  update time vel contVel self = (self', inr tt) ->
  get_pose self' =
    (self',
     inr (vadd (row_pose r)
               (vscale (vadd (pad_vel vel) contVel) (time - row_t r)))).
Proof.
  intros Hwf Hr Hup.
  destruct (Z_lt_ge_dec (life self) (lifespan self - 1)) as [Hlt | Hge].
  2:{ rewrite update_exhausted in Hup by exact Hge. discriminate. }
  destruct (update_wf _ _ _ _ _ Hwf Hup) as (Hwf' & _ & _).
  destruct (get_pose_wf self' Hwf') as (r' & Hr' & Hget).
  rewrite Hget. f_equal. f_equal.
  rewrite (update_alive self time vel contVel r Hwf Hlt Hr) in Hup.
  injection Hup as <-. unfold last_row in Hr'. cbn [life poseHist] in Hr'.
  rewrite list_lookup_insert_eq in Hr' by (destruct Hwf; lia).
  injection Hr' as <-. reflexivity.
Qed.

Lemma get_pose_after_update_witness :
  exists self' : t,
    wf (mk 0 2 [Row 0 (Vec3 1 2 0); Row 0 vzero]) /\
    last_row (mk 0 2 [Row 0 (Vec3 1 2 0); Row 0 vzero])
      = Some (Row 0 (Vec3 1 2 0)) /\
    update 1 (Vel2 3 4) vzero (mk 0 2 [Row 0 (Vec3 1 2 0); Row 0 vzero])
      = (self', inr tt) /\
    get_pose self' =
      (self',
       inr (vadd (Vec3 1 2 0)
                 (vscale (vadd (pad_vel (Vel2 3 4)) vzero) (1 - 0)))).
Proof.
  assert (Hwf : wf (mk 0 2 [Row 0 (Vec3 1 2 0); Row 0 vzero])).
  { split; [cbn; lia | reflexivity]. }
  assert (Hlt : (life (mk 0 2 [Row 0 (Vec3 1 2 0); Row 0 vzero])
                 < lifespan (mk 0 2 [Row 0 (Vec3 1 2 0); Row 0 vzero]) - 1)%Z)
    by (cbn; lia).
  pose proof (update_alive _ 1 (Vel2 3 4) vzero (Row 0 (Vec3 1 2 0))
                Hwf Hlt eq_refl) as Hup.
  eexists. split; [exact Hwf |]. split; [reflexivity |].
  split; [exact Hup |].
  exact (get_pose_after_update _ _ 1 (Vel2 3 4) vzero _ Hwf eq_refl Hup).
Defined.

Lemma updates_history_prefix (cs : list call) :
  forall (self self' : t) (res : exn + unit),
    wf self -> updates cs self = (self', res) ->
    wf self' /\ history self `prefix_of` history self'.
Proof.
  induction cs as [| [[time vel] contVel] cs IH]; intros self self' res Hwf Hrun.
  - cbn in Hrun. injection Hrun as <- <-. split; [exact Hwf | reflexivity].
  - cbn [updates update_call] in Hrun. unfold bind in Hrun.
    destruct (update time vel contVel self) as [s1 [e | []]] eqn:Hup.
    + injection Hrun as <- <-.
      exact (update_history_prefix _ _ _ _ _ _ Hwf Hup).
    + destruct (update_history_prefix _ _ _ _ _ _ Hwf Hup) as [Hwf1 Hp1].
      destruct (IH _ _ _ Hwf1 Hrun) as [Hwf' Hp'].
      split; [exact Hwf' |]. etransitivity; eassumption.
Qed.

(** X5. The history is append-only: whatever run of [update] calls
    follows, and whether or not it ends in an exception, the rows recorded
    before it are still there, in order, at the front of the history. *)
Theorem history_is_append_only (pose : vec3) (N : Z)
    (cs1 cs2 : list call) (s0 s1 s2 : t) (res : exn + unit) :
  init pose N = inr s0 ->
  updates cs1 s0 = (s1, inr tt) ->
  updates cs2 s1 = (s2, res) ->
  history s1 `prefix_of` history s2 /\
  length (history s1) = S (length cs1).
Proof.
  intros Hinit Hrun1 Hrun2.
  pose proof (init_wf _ _ _ Hinit) as Hwf0.
  destruct (updates_history_prefix cs1 _ _ _ Hwf0 Hrun1) as [Hwf1 _].
  destruct (updates_history_prefix cs2 _ _ _ Hwf1 Hrun2) as [_ Hp].
  split; [exact Hp |].
  rewrite (history_length _ Hwf1).
  destruct (Z_lt_ge_dec (lifespan s0 - 1)
                        (life s0 + Z.of_nat (length cs1))) as [Hover | Hfit].
  - exfalso.
    apply init_inv in Hinit as [HN ->]. cbn [life lifespan] in Hover.
    rewrite <- (take_drop (Z.to_nat (N - 1)) cs1) in Hrun1.
    rewrite updates_app in Hrun1.
    destruct (updates_alive (take (Z.to_nat (N - 1)) cs1) _ Hwf0)
      as (sa & Hra & Hwfa & Hla & Hsa).
    { cbn [life lifespan]. rewrite length_take. lia. }
    rewrite Hra in Hrun1.
    destruct (drop (Z.to_nat (N - 1)) cs1) as [| [[time vel] contVel] rest]
      eqn:Hd.
    { apply (f_equal length) in Hd. rewrite length_drop in Hd.
      cbn in Hd. lia. }
    cbn [updates update_call] in Hrun1. unfold bind in Hrun1.
    rewrite update_exhausted in Hrun1; [discriminate |].
    rewrite Hla, Hsa. cbn [life lifespan]. rewrite length_take. lia.
  - destruct (updates_alive cs1 _ Hwf0) as (sb & Hrb & _ & Hlb & _);
      [lia |].
    rewrite Hrb in Hrun1. injection Hrun1 as <-.
    rewrite Hlb. apply init_inv in Hinit as [HN ->]. cbn [life]. lia.
Qed.

Lemma history_is_append_only_witness :
  exists s0 s1 s2 : t,
    init vzero 2 = inr s0 /\
    updates [(1, Vel2 0 1, vzero)] s0 = (s1, inr tt) /\
    updates [(2, Vel2 0 1, vzero)] s1 = (s2, inl IndexError) /\
    history s1 `prefix_of` history s2 /\
    length (history s1) = 2%nat.
Proof.
  eexists. eexists. eexists.
  assert (Hinit : init vzero 2 = inr (mk 0 2 [Row 0 vzero; Row 0 vzero]))
    by reflexivity.
  split; [exact Hinit |]. split; [reflexivity |]. split; [reflexivity |].
  refine (history_is_append_only vzero 2 [(1, Vel2 0 1, vzero)]
            [(2, Vel2 0 1, vzero)] _ _ _ _ Hinit _ _); reflexivity.
Defined.

(** X6. A run longer than the budget stops at the budget: of a run of at
    least [lifespan] calls on a fresh swimmer exactly the first
    [lifespan - 1] are carried out, the next one raises, and the object is
    left as those [lifespan - 1] calls made it, with all its rows
    recorded. *)
Theorem overrun_stops_at_budget (pose : vec3) (N : Z) (cs : list call)
    (s0 : t) :
  init pose N = inr s0 ->
  (N <= Z.of_nat (length cs))%Z ->
  exists s1 : t,
    updates (take (Z.to_nat (N - 1)) cs) s0 = (s1, inr tt) /\
    updates cs s0 = (s1, inl IndexError) /\
    life s1 = (N - 1)%Z /\
    history s1 = poseHist s1.
Proof.
  intros Hinit Hlen.
  pose proof (init_wf _ _ _ Hinit) as Hwf0.
  apply init_inv in Hinit as [HN ->].
  destruct (updates_alive (take (Z.to_nat (N - 1)) cs) _ Hwf0)
    as (s1 & Hrun & Hwf1 & Hlife & Hspan).
  { cbn [life lifespan]. rewrite length_take. lia. }
  cbn [life lifespan] in Hlife, Hspan. rewrite length_take in Hlife.
  exists s1. split; [exact Hrun |]. split; [| split].
  - rewrite <- (take_drop (Z.to_nat (N - 1)) cs) at 1.
    rewrite updates_app, Hrun.
    destruct (drop (Z.to_nat (N - 1)) cs) as [| [[time vel] contVel] rest]
      eqn:Hd.
    { apply (f_equal length) in Hd. rewrite length_drop in Hd.
      cbn in Hd. lia. }
    cbn [updates update_call]. unfold bind.
    rewrite update_exhausted by lia. reflexivity.
  - lia.
  - unfold history. destruct Hwf1 as [_ Hl].
    apply take_ge. lia.
Qed.

Lemma overrun_stops_at_budget_witness :
  exists s0 s1 : t,
    init vzero 2 = inr s0 /\
    Z.le 2%Z (Z.of_nat (length [(1, Vel2 0 1, vzero); (2, Vel2 0 1, vzero);
                                (3, Vel2 0 1, vzero)])) /\
    updates [(1, Vel2 0 1, vzero)] s0 = (s1, inr tt) /\
    updates [(1, Vel2 0 1, vzero); (2, Vel2 0 1, vzero);
             (3, Vel2 0 1, vzero)] s0 = (s1, inl IndexError) /\
    life s1 = 1%Z /\
    history s1 = poseHist s1.
Proof.
  assert (Hinit : init vzero 2 = inr (mk 0 2 [Row 0 vzero; Row 0 vzero]))
    by reflexivity.
  assert (Hlen : Z.le 2%Z (Z.of_nat (length [(1, Vel2 0 1, vzero);
                                             (2, Vel2 0 1, vzero);
                                             (3, Vel2 0 1, vzero)])))
    by (cbn; lia).
  destruct (overrun_stops_at_budget vzero 2 _ _ Hinit Hlen)
    as (s1 & H1 & H2 & H3 & H4).
  eexists. exists s1. split; [exact Hinit |]. split; [exact Hlen |].
  repeat split; assumption.
Defined.

Lemma updates_preserve (P : t -> Prop) :
  (forall (self self' : t) (time : R) (vel : velocity) (contVel : vec3)
          (res : exn + unit),
      wf self -> P self -> update time vel contVel self = (self', res) ->
      P self') ->
  forall (cs : list call) (self self' : t) (res : exn + unit),
    wf self -> P self -> updates cs self = (self', res) -> P self'.
Proof.
  intros Hstep. induction cs as [| [[time vel] contVel] cs IH];
    intros self self' res Hwf HP Hrun.
  - cbn in Hrun. injection Hrun as <- <-. exact HP.
  - cbn [updates update_call] in Hrun. unfold bind in Hrun.
    destruct (update time vel contVel self) as [s1 [e | []]] eqn:Hup.
    + injection Hrun as <- <-. exact (Hstep _ _ _ _ _ _ Hwf HP Hup).
    + apply (IH s1 self' res); [| | exact Hrun].
      * exact (proj1 (update_history_prefix _ _ _ _ _ _ Hwf Hup)).
      * exact (Hstep _ _ _ _ _ _ Hwf HP Hup).
Qed.

(** X8. Rows past the current one are never written: in a swimmer
    built by [__init__] and driven by [update] only, every row of the
    buffer after row [life] is still the zero row [np.zeros] put there. *)
Theorem rows_past_life_are_zero (pose : vec3) (N : Z) (cs : list call)
    (s0 s1 : t) (res : exn + unit) :
  init pose N = inr s0 ->
  updates cs s0 = (s1, res) ->
  forall i : nat,
    (Z.to_nat (life s1) < i < Z.to_nat N)%nat ->
    poseHist s1 !! i = Some (Row 0 vzero).
Proof.
  intros Hinit Hrun.
  pose proof (init_wf _ _ _ Hinit) as Hwf0.
  set (P := fun self : t =>
              lifespan self = N /\
              forall i : nat,
                (Z.to_nat (life self) < i < Z.to_nat N)%nat ->
                poseHist self !! i = Some (Row 0 vzero)).
  assert (HP : P s1); [| exact (proj2 HP)].
  apply (updates_preserve P) with (cs := cs) (self := s0) (res := res);
    [| exact Hwf0 | | exact Hrun].
  - intros self self' time vel contVel r Hwf [Hspan Hz] Hup.
    destruct (Z_lt_ge_dec (life self) (lifespan self - 1)) as [Hlt | Hge].
    + destruct (read_row_wf self Hwf) as (r0 & Hr0 & _).
      rewrite (update_alive self time vel contVel r0 Hwf Hlt Hr0) in Hup.
      injection Hup as <- <-. split; [exact Hspan |].
      cbn [life poseHist]. intros i Hi.
      rewrite list_lookup_insert_ne by lia. apply Hz. destruct Hwf. lia.
    + rewrite update_exhausted in Hup by exact Hge.
      injection Hup as <- <-. split; assumption.
  - apply init_inv in Hinit as [HN ->]. split; [reflexivity |].
    cbn [life poseHist]. intros i Hi.
    rewrite list_lookup_insert_ne by lia.
    apply lookup_replicate_2. lia.
Qed.

Lemma rows_past_life_are_zero_witness :
  exists s0 s1 : t,
    init (Vec3 1 2 0) 4 = inr s0 /\
    updates [(1, Vel2 0 1, vzero)] s0 = (s1, inr tt) /\
    (Z.to_nat (life s1) < 3 < Z.to_nat 4)%nat /\
    poseHist s1 !! 3%nat = Some (Row 0 vzero).
Proof.
  eexists. eexists.
  assert (Hinit : init (Vec3 1 2 0) 4 = inr _) by reflexivity.
  split; [exact Hinit |]. split; [reflexivity |].
  split; [cbn; lia |].
  refine (rows_past_life_are_zero (Vec3 1 2 0) 4 [(1, Vel2 0 1, vzero)]
            _ _ (inr tt) Hinit _ 3%nat _); [reflexivity | cbn; lia].
Defined.

(** X19. A control velocity of two components is not padded as a flow
    velocity is: on a well-formed swimmer, [update] with such a control
    velocity raises and records nothing. The exhaustion test comes first,
    so an exhausted swimmer raises [IndexError]; otherwise the sum
    [vel + contVel] raises [ValueError]. *)
Theorem two_component_control_raises (self : t) (time : R) (vel : velocity)
    (cx cy : R) :
  wf self ->
  update_any time vel (Vel2 cx cy) self =
    (self,
     inl (if (life self >=? lifespan self - 1)%Z then IndexError
          else ValueError)).
Proof.
  intros Hwf. destruct (read_row_wf self Hwf) as (r & _ & Hread).
  unfold update_any, bind, get.
  destruct (life self >=? lifespan self - 1)%Z; [reflexivity |].
  rewrite Hread. cbn beta iota. rewrite Hread. reflexivity.
Qed.

Lemma two_component_control_raises_witness :
  wf (mk 0 2 [Row 0 (Vec3 1 2 0); Row 0 vzero]) /\
  update_any 1 (Vel2 3 4) (Vel2 1 1) (mk 0 2 [Row 0 (Vec3 1 2 0); Row 0 vzero])
    = (mk 0 2 [Row 0 (Vec3 1 2 0); Row 0 vzero], inl ValueError).
Proof.
  assert (Hwf : wf (mk 0 2 [Row 0 (Vec3 1 2 0); Row 0 vzero])).
  { split; [cbn; lia | reflexivity]. }
  split; [exact Hwf |].
  exact (two_component_control_raises _ 1 (Vel2 3 4) 1 1 Hwf).
Defined.

End SwimmerMore.

(** * Further properties of [ApproachController] *)

Section ControllerMore.

Import ApproachController.

Variable wrap_to_pi : R -> R.

(** X10. The control law has no memory: the velocity [get_control_vel]
    returns and the errors it stores depend on the two positions and on
    the gain, the thruster speed, the flow model, the orientation and the
    direction only, not on the errors stored before, the dwell counter or
    its threshold. *)
Theorem get_control_vel_has_no_memory (a b : t) (pos targ : vec3) :
  Kp a = Kp b -> vel_from_thrusters a = vel_from_thrusters b ->
  flow_model a = flow_model b ->
  flow_ori a = flow_ori b -> flow_dir a = flow_dir b ->
  snd (get_control_vel wrap_to_pi pos targ a)
    = snd (get_control_vel wrap_to_pi pos targ b) /\
  r_diff (fst (get_control_vel wrap_to_pi pos targ a))
    = r_diff (fst (get_control_vel wrap_to_pi pos targ b)) /\
  theta_diff (fst (get_control_vel wrap_to_pi pos targ a))
    = theta_diff (fst (get_control_vel wrap_to_pi pos targ b)).
Proof.
  intros HK Hv Hfm Hori Hdir.
  rewrite !get_control_vel_unfold. cbn.
  rewrite HK, Hv, Hfm, Hori, Hdir. repeat split.
Qed.

(** X11. Flipping both flags at once changes nothing the mobile boat can
    feel: two controllers that differ in having the opposite orientation
    and the opposite direction return the same control velocity and store
    the same radius error; the stored phase errors are opposite, so the
    total error [evaluate_convergence] computes is the same. *)
Theorem flipping_both_flags (a b : t) (pos targ : vec3) :
  Kp a = Kp b -> vel_from_thrusters a = vel_from_thrusters b ->
  flow_model a = flow_model b ->
  ori_value (flow_ori a) = - ori_value (flow_ori b) ->
  dir_value (flow_dir a) = - dir_value (flow_dir b) ->
  snd (get_control_vel wrap_to_pi pos targ a)
    = snd (get_control_vel wrap_to_pi pos targ b) /\
  r_diff (fst (get_control_vel wrap_to_pi pos targ a))
    = r_diff (fst (get_control_vel wrap_to_pi pos targ b)) /\
  (exists e : R,
      theta_diff (fst (get_control_vel wrap_to_pi pos targ a)) = Fin (- e) /\
      theta_diff (fst (get_control_vel wrap_to_pi pos targ b)) = Fin e) /\
  step_error wrap_to_pi a (pos, targ) = step_error wrap_to_pi b (pos, targ).
Proof.
  intros HK Hv Hfm Hori Hdir. unfold step_error. cbn [fst snd].
  rewrite !get_control_vel_unfold. cbn.
  rewrite HK, Hv, Hfm, Hori, Hdir.
  set (w := wrap_to_pi _).
  set (o := ori_value (flow_ori b)). set (d := dir_value (flow_dir b)).
  replace (Kp b * (w * - o) * - d) with (Kp b * (w * o) * d) by ring.
  split; [reflexivity |]. split; [reflexivity |]. split.
  - exists (w * o). split; [f_equal; ring | reflexivity].
  - unfold total_err. cbn. f_equal. f_equal. ring.
Qed.

(** The number of passes at the end of [pts] that make up the current
    unbroken streak of passes within the threshold. *)
Lemma dwell_streak (pts : list (vec3 * vec3)) :
  forall (self self' : t) (bs : list bool),
    convergence_count self = 0%Z ->
    control_steps wrap_to_pi pts self = (self', inr bs) ->
    exists n : nat,
      convergence_count self' = Z.of_nat n /\
      (n <= length pts)%nat /\
      Forall (fun pt => xleb (step_error wrap_to_pi self pt)
                             convergence_threshold = true)
             (drop (length pts - n) pts) /\
      (forall pt, pts !! (length pts - S n)%nat = Some pt ->
                  (n < length pts)%nat ->
                  xleb (step_error wrap_to_pi self pt) convergence_threshold
                    = false) /\
      (pts <> [] ->
       last bs = Some (count_reaches (convergence_count_threshold self)
                                     (Z.of_nat n))).
Proof.
  induction pts as [| pt pts IH] using rev_ind; intros self self' bs Hc Hrun.
  - cbn in Hrun. injection Hrun as <- <-. exists 0%nat.
    split; [exact Hc |]. split; [cbn; lia |]. split; [constructor |].
    split; [intros ? _ H; cbn in H; lia | congruence].
  - destruct (control_steps_total wrap_to_pi pts self)
      as (s1 & bs1 & Hrun1 & _ & Hset1).
    destruct (control_step_count wrap_to_pi s1 pt) as (s2 & Hstep & Hc2 & Hset2).
    cbn zeta in Hstep, Hc2.
    rewrite (step_error_settings _ s1 self pt Hset1) in Hstep, Hc2.
    pose proof (control_steps_cons wrap_to_pi _ _ _ [] _ Hstep) as Hlast.
    change (control_steps wrap_to_pi [] s2) with (s2, @inr exn _ (@nil bool))
      in Hlast.
    cbn beta iota in Hlast.
    pose proof (control_steps_app wrap_to_pi _ _ _ _ _ _ _ Hrun1 Hlast) as Hall.
    rewrite Hall in Hrun. injection Hrun as <- <-.
    destruct (IH _ _ _ Hc Hrun1) as (n & Hn & Hle & Hin & Hout & _).
    pose proof Hset1 as (_ & _ & _ & _ & _ & Hthr).
    rewrite length_app. cbn [length].
    destruct (xleb (step_error wrap_to_pi self pt) convergence_threshold)
      eqn:Hpt.
    + exists (S n). split; [rewrite Hc2, Hn; lia |]. split; [lia |].
      split; [| split].
      * replace (length pts + 1 - S n)%nat with (length pts - n)%nat by lia.
        rewrite drop_app_le by lia. apply Forall_app. split; [exact Hin |].
        apply Forall_singleton. exact Hpt.
      * intros q Hq Hlt.
        rewrite lookup_app_l in Hq by lia.
        replace (length pts + 1 - S (S n))%nat with (length pts - S n)%nat
          in Hq by lia.
        apply Hout; [exact Hq | lia].
      * intros _. rewrite last_snoc, Hthr, Hn. f_equal. f_equal. lia.
    + exists 0%nat. split; [exact Hc2 |]. split; [lia |].
      split; [| split].
      * rewrite drop_ge by (rewrite length_app; cbn; lia). constructor.
      * intros q Hq _.
        replace (length pts + 1 - 1)%nat with (length pts + 0)%nat in Hq
          by lia.
        rewrite lookup_app_r in Hq by lia.
        replace (length pts + 0 - length pts)%nat with 0%nat in Hq by lia.
        cbn in Hq. injection Hq as <-. exact Hpt.
      * intros _. rewrite last_snoc, Hthr. reflexivity.
Qed.

Lemma count_reaches_dwell (time_step : R) (n : nat) :
  0 < time_step ->
  count_reaches (time_to_convergence / time_step) (Z.of_nat n) = true <->
  time_to_convergence <= IZR (Z.of_nat n) * time_step.
Proof.
  intros Hts. unfold count_reaches, time_to_convergence.
  assert (Hq : 2 / time_step * time_step = 2) by (field; lra).
  destruct (Rge_dec (IZR (Z.of_nat n)) (2 / time_step)) as [Hge | Hlt].
  - split; [intros _ | reflexivity].
    rewrite <- Hq. apply Rmult_le_compat_r; lra.
  - split; [discriminate |]. intros Hle. exfalso. apply Hlt.
    apply Rle_ge. apply (Rmult_le_reg_r time_step); [exact Hts |]. lra.
Qed.


(** X13. Conversely a full dwell is always recognised: when a run on a
    controller built with a positive time step ends with [n >= 1] passes
    in a row within the threshold and [n * time_step >= 2], its latest
    pass is answered [True]. *)
Theorem full_dwell_is_recognised (fm : GyreFlow) (ori : FlowOrientation)
    (dir : FlowDirection) (time_step : R) (pts : list (vec3 * vec3))
    (c0 : t) (n : nat) :
  0 < time_step ->
  init fm ori dir time_step = inr c0 ->
  (1 <= n <= length pts)%nat ->
  time_to_convergence <= IZR (Z.of_nat n) * time_step ->
  Forall (fun pt => xleb (step_error wrap_to_pi c0 pt)
                         convergence_threshold = true)
         (drop (length pts - n) pts) ->
  exists (c1 : t) (bs : list bool),
    control_steps wrap_to_pi pts c0 = (c1, inr bs) /\
    last bs = Some true.
Proof.
  intros Hts Hinit [Hn1 Hn2] Hdwell Hall.
  destruct (control_steps_total wrap_to_pi pts c0) as (c1 & bs & Hrun & _ & _).
  exists c1, bs. split; [exact Hrun |].
  apply init_inr in Hinit as [_ ->].
  destruct (dwell_streak pts (mk 0.5 0.01 fm ori dir 0
                                 (time_to_convergence / time_step) Inf Inf)
              c1 bs eq_refl Hrun)
    as (m & _ & Hle & _ & Hout & Hans).
  assert (Hne : pts <> []).
  { intros ->. cbn in Hn2. lia. }
  rewrite (Hans Hne). f_equal. cbn [convergence_count_threshold].
  apply count_reaches_dwell; [exact Hts |].
  destruct (le_lt_dec n m) as [Hnm | Hmn].
  - apply Rle_trans with (IZR (Z.of_nat n) * time_step); [exact Hdwell |].
    apply Rmult_le_compat_r; [lra |]. apply IZR_le. lia.
  - exfalso.
    destruct (lookup_lt_is_Some_2 pts (length pts - S m)) as [q Hq]; [lia |].
    pose proof (Hout q Hq ltac:(lia)) as Hbad.
    assert (Hq' : drop (length pts - n) pts
                    !! (length pts - S m - (length pts - n))%nat = Some q).
    { rewrite lookup_drop. rewrite <- Hq. f_equal. lia. }
    pose proof (Forall_lookup_1 _ _ _ _ Hall Hq') as Hgood.
    cbn beta in Hgood. congruence.
Qed.

End ControllerMore.

(** ** The further controller properties on the concrete vortex *)

Section ConcreteVortexMore.

Import ApproachController.

Lemma get_control_vel_has_no_memory_witness :
  snd (get_control_vel wrap_to_pi_model (Vec3 1 0 0) (Vec3 2 0 0)
         (mk 0.5 0.01 polar_flow CCW IN 7 (time_to_convergence / 0.01)
             (Fin 3) Inf))
    = snd (get_control_vel wrap_to_pi_model (Vec3 1 0 0) (Vec3 2 0 0)
             vortex_controller).
Proof.
  exact (proj1 (get_control_vel_has_no_memory wrap_to_pi_model
                  (mk 0.5 0.01 polar_flow CCW IN 7
                      (time_to_convergence / 0.01) (Fin 3) Inf)
                  vortex_controller (Vec3 1 0 0) (Vec3 2 0 0)
                  eq_refl eq_refl eq_refl eq_refl eq_refl)).
Defined.

Lemma flipping_both_flags_witness :
  ori_value CCW = - ori_value CW /\
  dir_value IN = - dir_value OUT /\
  snd (get_control_vel wrap_to_pi_model (Vec3 1 0 0) (Vec3 0 2 0)
         vortex_controller)
    = snd (get_control_vel wrap_to_pi_model (Vec3 1 0 0) (Vec3 0 2 0)
             (mk 0.5 0.01 polar_flow CW OUT 0
                 (time_to_convergence / 0.1) Inf Inf)).
Proof.
  assert (Ho : ori_value CCW = - ori_value CW) by (cbn; lra).
  assert (Hd : dir_value IN = - dir_value OUT) by (cbn; lra).
  split; [exact Ho |]. split; [exact Hd |].
  exact (proj1 (flipping_both_flags wrap_to_pi_model vortex_controller
                  (mk 0.5 0.01 polar_flow CW OUT 0
                      (time_to_convergence / 0.1) Inf Inf)
                  (Vec3 1 0 0) (Vec3 0 2 0)
                  eq_refl eq_refl eq_refl Ho Hd)).
Defined.

Lemma zero_error_within_threshold :
  xleb (step_error wrap_to_pi_model vortex_controller
                   (Vec3 1 0 0, Vec3 1 0 0))
       convergence_threshold = true.
Proof.
  rewrite step_error_x_axis by (try reflexivity; lra).
  unfold xleb, convergence_threshold.
  destruct (Rle_dec (1 - 1) 0.01); [reflexivity | lra].
Qed.


Lemma full_dwell_is_recognised_witness :
  0 < 0.1 /\
  init polar_flow CCW IN 0.1 = inr vortex_controller /\
  time_to_convergence <= IZR (Z.of_nat 20) * 0.1 /\
  exists (c1 : t) (bs : list bool),
    control_steps wrap_to_pi_model (replicate 20 (Vec3 1 0 0, Vec3 1 0 0))
                  vortex_controller = (c1, inr bs) /\
    last bs = Some true.
Proof.
  assert (Hts : 0 < 0.1) by lra.
  assert (Hdwell : time_to_convergence <= IZR (Z.of_nat 20) * 0.1).
  { unfold time_to_convergence. change (Z.of_nat 20) with 20%Z. lra. }
  split; [exact Hts |]. split; [exact init_vortex_controller |].
  split; [exact Hdwell |].
  apply (full_dwell_is_recognised wrap_to_pi_model polar_flow CCW IN 0.1
           (replicate 20 (Vec3 1 0 0, Vec3 1 0 0)) vortex_controller 20
           Hts init_vortex_controller).
  - rewrite length_replicate. lia.
  - exact Hdwell.
  - rewrite length_replicate, Nat.sub_diag, drop_0.
    apply Forall_replicate. exact zero_error_within_threshold.
Defined.

End ConcreteVortexMore.

(** * Properties of [run_simulation] *)

Section SimulationFacts.

Import Simulation.

Variables FlowSpec Flow Controller : Type.
Variable GyreFlow_new : FlowSpec -> exn + Flow.
Variable flow_func : Flow -> R * R -> velocity.
Variable Controller_new :
  Flow -> FlowOrientation -> FlowDirection -> R -> exn + Controller.
Variable get_control_vel : R * R -> R * R -> M Controller vec3.
Variable evaluate_convergence : M Controller bool.

(** The two methods of the controller return. *)
Hypothesis get_control_vel_returns :
  forall (pos targ : R * R) (c : Controller),
    exists (c' : Controller) (v : vec3),
      get_control_vel pos targ c = (c', inr v).
Hypothesis evaluate_convergence_returns :
  forall c : Controller,
    exists (c' : Controller) (b : bool),
      evaluate_convergence c = (c', inr b).

Local Abbreviation loop_body :=
  (loop_body Flow Controller flow_func get_control_vel evaluate_convergence).
Local Abbreviation for_loop :=
  (for_loop Flow Controller flow_func get_control_vel evaluate_convergence).
Local Abbreviation run_simulation :=
  (run_simulation FlowSpec Flow Controller GyreFlow_new flow_func
                  Controller_new get_control_vel evaluate_convergence).

Lemma py_range_cons (a b : Z) :
  (a < b)%Z -> py_range a b = a :: py_range (a + 1) b.
Proof.
  intros Hab. unfold py_range.
  replace (Z.to_nat (b - a)) with (S (Z.to_nat (b - (a + 1)))) by lia.
  cbn [seq map]. f_equal; [lia |].
  rewrite <- seq_shift, map_map. apply map_ext. intros k. lia.
Qed.

Lemma py_range_snoc (a b : Z) :
  (a <= b)%Z -> py_range a (b + 1) = py_range a b ++ [b].
Proof.
  intros Hab. unfold py_range.
  replace (Z.to_nat (b + 1 - a)) with (Z.to_nat (b - a) + 1)%nat by lia.
  rewrite seq_app, map_app. cbn [seq map]. do 3 f_equal. lia.
Qed.

Lemma py_range_empty (a b : Z) : (b <= a)%Z -> py_range a b = [].
Proof.
  intros Hab. unfold py_range.
  replace (Z.to_nat (b - a)) with 0%nat by lia. reflexivity.
Qed.

Lemma step_times_snoc (timestep : R) (k : Z) :
  (0 <= k)%Z ->
  step_times timestep (k + 1) =
  step_times timestep k ++ [timestep * IZR (k + 1)].
Proof.
  intros Hk. unfold step_times.
  rewrite (py_range_snoc 1 (k + 1)) by lia. rewrite map_app. reflexivity.
Qed.

Lemma update_step (self : Swimmer.t) (time : R) (vel : velocity)
    (contVel : vec3) :
  Swimmer.wf self ->
  (Swimmer.life self < Swimmer.lifespan self - 1)%Z ->
  exists self' : Swimmer.t,
    Swimmer.update time vel contVel self = (self', inr tt) /\
    Swimmer.wf self' /\
    Swimmer.life self' = (Swimmer.life self + 1)%Z /\
    Swimmer.lifespan self' = Swimmer.lifespan self /\
    Swimmer.timestamps self' = Swimmer.timestamps self ++ [time].
Proof.
  intros Hwf Hlt.
  destruct (read_row_wf self Hwf) as (r & Hr & _).
  pose proof (update_alive self time vel contVel r Hwf Hlt Hr) as Hup.
  destruct (update_wf _ _ _ _ _ Hwf Hup) as (Hwf' & Hl & Hs).
  eexists. split; [exact Hup |]. split; [exact Hwf' |].
  split; [exact Hl |]. split; [exact Hs |].
  unfold Swimmer.timestamps. rewrite history_snoc by assumption.
  rewrite map_app. reflexivity.
Qed.

(** One turn of the loop from a state reached after [ii - 1] turns, with
    room left in the swimmers: it returns, both swimmers are one row on,
    [t] holds [timestep_s * ii], the cost has grown by the norm of the
    control velocity times the time step, and [result] is set exactly when
    the turn asks to leave the loop. *)
Lemma loop_body_returns (iters : Z) (timestep : R) (flow : Flow) (ii : Z)
    (s : locals Controller) :
  after_steps Controller iters timestep (ii - 1) s ->
  (1 <= ii <= iters - 1)%Z ->
  exists (s' : locals Controller) (stop : bool) (pos targ : R * R)
         (c' : Controller) (v : vec3),
    loop_body timestep flow ii s = (s', inr stop) /\
    after_steps Controller iters timestep ii s' /\
    t Controller s' = Some (timestep * IZR ii) /\
    get_control_vel pos targ (cont Controller s) = (c', inr v) /\
    evaluate_convergence c' = (cont Controller s', inr stop) /\
    cost Controller s' = cost Controller s + norm3 v * timestep /\
    result Controller s' = (if stop then true else result Controller s).
Proof.
  intros (Hwfb & Hwfs & Hlb & Hls & Hsb & Hss & Htb & Hts) Hii.
  destruct s as [b0 s0 c0 r0 x0 t0]. cbn [boat strc cont result cost t] in *.
  destruct (get_pose_wf b0 Hwfb) as (rb & _ & Hgb).
  destruct (get_pose_wf s0 Hwfs) as (rs & _ & Hgs).
  destruct (get_control_vel_returns (xy (Swimmer.row_pose rb)) (xy (Swimmer.row_pose rs)) c0)
    as (c1 & v & Hcv).
  destruct (update_step b0 (timestep * IZR ii)
              (flow_func flow (xy (Swimmer.row_pose rb))) v Hwfb)
    as (b1 & Hub & Hwfb1 & Hlb1 & Hsb1 & Htb1); [lia |].
  destruct (update_step s0 (timestep * IZR ii)
              (flow_func flow (xy (Swimmer.row_pose rs))) vzero Hwfs)
    as (s1 & Hus & Hwfs1 & Hls1 & Hss1 & Hts1); [lia |].
  destruct (evaluate_convergence_returns c1) as (c2 & stop & Hev).
  exists (mk_locals Controller b1 s1 c2 (if stop then true else r0)
                    (x0 + norm3 v * timestep) (Some (timestep * IZR ii))).
  exists stop, (xy (Swimmer.row_pose rb)), (xy (Swimmer.row_pose rs)), c1, v.
  split.
  { unfold Simulation.loop_body, bind, modify, on_boat, on_strc, on_cont,
      set_t, set_cost, set_result, ret.
    cbn [boat strc cont result cost t]. rewrite Hgb.
    cbn [boat strc cont result cost t]. rewrite Hgs.
    cbn [boat strc cont result cost t]. rewrite Hcv.
    cbn [boat strc cont result cost t]. rewrite Hub.
    cbn [boat strc cont result cost t]. rewrite Hus.
    cbn [boat strc cont result cost t]. rewrite Hev.
    destruct stop; reflexivity. }
  split.
  { unfold after_steps. cbn [boat strc].
    assert (Hst : step_times timestep ii =
                  step_times timestep (ii - 1) ++ [timestep * IZR ii]).
    { pose proof (step_times_snoc timestep (ii - 1) ltac:(lia)) as H.
      replace (ii - 1 + 1)%Z with ii in H by lia. exact H. }
    rewrite Hst, Htb1, Hts1, Htb, Hts.
    split; [exact Hwfb1 |]. split; [exact Hwfs1 |].
    split; [lia |]. split; [lia |]. split; [congruence |].
    split; [congruence |]. split; reflexivity. }
  cbn [cont cost result t]. repeat split; assumption.
Qed.

(** The loop over [range(ii0, ii0 + n)], entered after [ii0 - 1] turns with
    room for [n] more rows: it returns after some [k - (ii0 - 1)] turns,
    all [n] of them unless [result] has been set. [Q] is any property of
    the turn count, the cost and the controller that a turn keeps. *)
Lemma for_loop_returns (iters : Z) (timestep : R) (flow : Flow)
    (Q : Z -> R -> Controller -> Prop) :
  (forall (k : Z) (x : R) (pos targ : R * R) (c c' c'' : Controller)
          (v : vec3) (b : bool),
      Q k x c -> get_control_vel pos targ c = (c', inr v) ->
      evaluate_convergence c' = (c'', inr b) ->
      Q (k + 1)%Z (x + norm3 v * timestep) c'') ->
  forall (n : nat) (ii0 : Z) (s : locals Controller),
    after_steps Controller iters timestep (ii0 - 1) s ->
    Q (ii0 - 1)%Z (cost Controller s) (cont Controller s) ->
    (1 <= ii0)%Z -> (ii0 + Z.of_nat n <= iters)%Z ->
    exists (s' : locals Controller) (k : Z),
      for_loop timestep flow (py_range ii0 (ii0 + Z.of_nat n)) s
        = (s', inr tt) /\
      (ii0 - 1 <= k <= ii0 - 1 + Z.of_nat n)%Z /\
      after_steps Controller iters timestep k s' /\
      Q k (cost Controller s') (cont Controller s') /\
      ((0 < n)%nat -> (ii0 <= k)%Z /\
                      t Controller s' = Some (timestep * IZR k)) /\
      (result Controller s' = true \/
       (result Controller s' = result Controller s /\
        k = (ii0 - 1 + Z.of_nat n)%Z)).
Proof.
  intros HQ. induction n as [| n IH]; intros ii0 s Hinv Hq Hii Hroom.
  - exists s, (ii0 - 1)%Z. rewrite py_range_empty by lia.
    split; [reflexivity |]. split; [lia |]. split; [exact Hinv |].
    split; [exact Hq |]. split; [lia |]. right. split; [reflexivity | lia].
  - rewrite py_range_cons by lia. cbn [Simulation.for_loop]. unfold bind.
    destruct (loop_body_returns iters timestep flow ii0 s Hinv)
      as (s1 & stop & pos & targ & c' & v & Hbody & Hinv1 & Ht1 & Hcv
          & Hev & Hcost1 & Hres1); [lia |].
    rewrite Hbody.
    assert (Hq1 : Q ii0 (cost Controller s1) (cont Controller s1)).
    { rewrite Hcost1. replace ii0 with (ii0 - 1 + 1)%Z at 1 by lia.
      exact (HQ _ _ _ _ _ _ _ _ _ Hq Hcv Hev). }
    destruct stop.
    + exists s1, ii0. split; [reflexivity |]. split; [lia |].
      split; [exact Hinv1 |]. split; [exact Hq1 |].
      split; [intros _; split; [lia | exact Ht1] |]. left. exact Hres1.
    + replace (ii0 + Z.of_nat (S n))%Z with (ii0 + 1 + Z.of_nat n)%Z by lia.
      destruct (IH (ii0 + 1)%Z s1) as (s2 & k & Hrun & Hk & Hinv2 & Hq2 & Ht2
                                       & Hres2).
      { replace (ii0 + 1 - 1)%Z with ii0 by lia. exact Hinv1. }
      { replace (ii0 + 1 - 1)%Z with ii0 by lia. exact Hq1. }
      { lia. }
      { lia. }
      exists s2, k. split; [exact Hrun |]. split; [lia |].
      split; [exact Hinv2 |]. split; [exact Hq2 |]. split.
      * intros _. destruct n as [| n'].
        -- assert (k = ii0) as -> by lia. split; [lia |].
           rewrite py_range_empty in Hrun by lia. cbn in Hrun.
           injection Hrun as <-. exact Ht1.
        -- destruct (Ht2 ltac:(lia)) as [Hk2 Ht2']. split; [lia | exact Ht2'].
      * destruct Hres2 as [Htrue | [Hsame Hkk]]; [left; exact Htrue |].
        right. split; [congruence | lia].
Qed.

Lemma init_timestamps (pose : vec3) (N : Z) (s0 : Swimmer.t) :
  Swimmer.init pose N = inr s0 -> Swimmer.timestamps s0 = [0].
Proof.
  intros H. apply init_inv in H as [HN ->].
  unfold Swimmer.timestamps, Swimmer.history.
  cbn [Swimmer.life Swimmer.poseHist].
  destruct (Z.to_nat N) as [| n] eqn:E; [lia |]. reflexivity.
Qed.

(** [run_simulation] on at least two iterations, with a flow and a
    controller that can be built. *)
Lemma run_simulation_returns (p : SimulationProblem FlowSpec) (flow : Flow)
    (cont0 : Controller) (Q : Z -> R -> Controller -> Prop) :
  let sim_params := simulation_params FlowSpec p in
  let timestep := timestep_s FlowSpec sim_params in
  let iters := py_int (total_time_s FlowSpec sim_params / timestep) in
  (forall (k : Z) (x : R) (pos targ : R * R) (c c' c'' : Controller)
          (v : vec3) (b : bool),
      Q k x c -> get_control_vel pos targ c = (c', inr v) ->
      evaluate_convergence c' = (c'', inr b) ->
      Q (k + 1)%Z (x + norm3 v * timestep) c'') ->
  Q 0%Z 0 cont0 ->
  timestep <> 0 -> (2 <= iters)%Z ->
  GyreFlow_new (flow_spec FlowSpec sim_params) = inr flow ->
  Controller_new flow (flow_ori FlowSpec sim_params)
                 (flow_dir FlowSpec sim_params) timestep = inr cont0 ->
  exists (out : SimulationOutput Flow) (k : Z),
    run_simulation p = inr (out, radius FlowSpec p) /\
    (1 <= k <= iters - 1)%Z /\
    Swimmer.life (modboat Flow out) = k /\
    Swimmer.life (struct Flow out) = k /\
    Swimmer.lifespan (modboat Flow out) = iters /\
    Swimmer.lifespan (struct Flow out) = iters /\
    Swimmer.timestamps (modboat Flow out) = step_times timestep k /\
    Swimmer.timestamps (struct Flow out) = step_times timestep k /\
    success_time Flow out = timestep * IZR k /\
    (success Flow out = false -> k = (iters - 1)%Z) /\
    (exists c : Controller, Q k (control_cost Flow out) c) /\
    flow_model Flow out = flow /\
    out_id_number Flow out = id_number FlowSpec p.
Proof.
  intros sim_params timestep iters HQ HQ0 Hts Hiters Hflow Hcont.
  destruct (Swimmer.init (modboat_start_pos FlowSpec p) iters)
    as [e | boat0] eqn:Hb.
  { rewrite init_positive in Hb by lia. discriminate. }
  destruct (Swimmer.init (struct_start_pos FlowSpec p) iters)
    as [e | strc0] eqn:Hs.
  { rewrite init_positive in Hs by lia. discriminate. }
  assert (Hinv0 : after_steps Controller iters timestep (1 - 1)
                    (mk_locals Controller boat0 strc0 cont0 false 0 None)).
  { unfold after_steps. cbn [boat strc].
    split; [exact (init_wf _ _ _ Hb) |]. split; [exact (init_wf _ _ _ Hs) |].
    rewrite (init_timestamps _ _ _ Hb), (init_timestamps _ _ _ Hs).
    apply init_inv in Hb as [_ ->]. apply init_inv in Hs as [_ ->].
    repeat split. }
  destruct (for_loop_returns iters timestep flow Q HQ
              (Z.to_nat (iters - 1)) 1%Z _ Hinv0)
    as (s' & k & Hrun & Hk & Hinv & Hq & Ht & Hres); [exact HQ0 | lia | lia |].
  replace (1 + Z.of_nat (Z.to_nat (iters - 1)))%Z with iters in Hrun by lia.
  destruct (Ht ltac:(lia)) as [Hk1 Htk].
  destruct Hinv as (_ & _ & Hlb & Hls & Hsb & Hss & Htb & Htss).
  eexists. exists k. split.
  { unfold Simulation.run_simulation.
    fold sim_params. fold timestep.
    destruct (Req_dec_T timestep 0); [contradiction |].
    fold iters. rewrite Hb, Hs, Hflow, Hcont, Hrun, Htk. reflexivity. }
  cbn [modboat struct success success_time control_cost flow_model
       out_id_number].
  split; [lia |]. repeat (split; [assumption || reflexivity |]).
  split.
  { intros Hfalse. destruct Hres as [Htrue | [_ Hkk]]; [congruence | lia]. }
  split; [exists (cont Controller s'); exact Hq |]. split; reflexivity.
Qed.

Lemma lookup_map {A B : Type} (f : A -> B) (l : list A) :
  forall i : nat, map f l !! i = option_map f (l !! i).
Proof.
  induction l as [| x l IH]; intros [| i]; cbn; try reflexivity. apply IH.
Qed.

Lemma step_times_lookup (timestep : R) (k : Z) (i : nat) (a : R) :
  step_times timestep k !! i = Some a -> a = timestep * IZR (Z.of_nat i).
Proof.
  unfold step_times. destruct i as [| j]; intros H.
  - change (Some 0 = Some a) in H. injection H as <-.
    change (Z.of_nat 0) with 0%Z. rewrite Rmult_0_r. reflexivity.
  - change (map (fun ii => timestep * IZR ii) (py_range 1 (k + 1)) !! j
            = Some a) in H.
    unfold py_range in H. rewrite map_map, lookup_map in H.
    destruct (seq 0 (Z.to_nat (k + 1 - 1)) !! j) as [x |] eqn:Hx;
      [| discriminate].
    apply lookup_seq in Hx as [-> _]. cbn [option_map] in H.
    injection H as <-. f_equal. f_equal. lia.
Qed.

Lemma step_times_increase (timestep : R) (k : Z) :
  0 < timestep -> strictly_increasing (step_times timestep k).
Proof.
  intros Hts i j a b Hij Ha Hb.
  apply step_times_lookup in Ha as ->. apply step_times_lookup in Hb as ->.
  apply Rmult_lt_compat_l; [exact Hts |]. apply IZR_lt. lia.
Qed.

(** X14. [run_simulation] never exhausts a swimmer. Whenever the step
    count [iters = int(total_time_s / timestep_s)] is at least [2] and the
    flow and the controller can be built, the run returns normally after
    some [k] turns of the loop with [1 <= k <= iters - 1]: both swimmers
    were built with lifespan [iters] and both end at [life = k], within
    the lifespan; the reported time is [timestep_s * k]; and a run that
    reports no success has used all [iters - 1] turns. *)
Theorem simulation_stays_within_lifespan (p : SimulationProblem FlowSpec)
    (flow : Flow) (cont0 : Controller) :
  let sim_params := simulation_params FlowSpec p in
  let timestep := timestep_s FlowSpec sim_params in
  let iters := py_int (total_time_s FlowSpec sim_params / timestep) in
  timestep <> 0 -> (2 <= iters)%Z ->
  GyreFlow_new (flow_spec FlowSpec sim_params) = inr flow ->
  Controller_new flow (flow_ori FlowSpec sim_params)
                 (flow_dir FlowSpec sim_params) timestep = inr cont0 ->
  exists (out : SimulationOutput Flow) (k : Z),
    run_simulation p = inr (out, radius FlowSpec p) /\
    (1 <= k <= iters - 1)%Z /\
    Swimmer.life (modboat Flow out) = k /\
    Swimmer.life (struct Flow out) = k /\
    Swimmer.lifespan (modboat Flow out) = iters /\
    Swimmer.lifespan (struct Flow out) = iters /\
    success_time Flow out = timestep * IZR k /\
    (success Flow out = false -> k = (iters - 1)%Z).
Proof.
  intros sim_params timestep iters Hts Hiters Hflow Hcont.
  destruct (run_simulation_returns p flow cont0 (fun _ _ _ => True))
    as (out & k & Hrun & Hk & Hlb & Hls & Hsb & Hss & _ & _ & Ht & Hres & _);
    try assumption; try exact I.
  { intros. exact I. }
  exists out, k. repeat (split; [assumption |]). exact Hres.
Qed.

(** X15. [run_simulation] hands its swimmers increasing times. Under
    the conditions of X14 and with a positive time step, both swimmers end
    with the same time column [0, timestep_s, 2 * timestep_s, ...,
    k * timestep_s], which increases strictly. *)
Theorem simulation_times_increase (p : SimulationProblem FlowSpec)
    (flow : Flow) (cont0 : Controller) :
  let sim_params := simulation_params FlowSpec p in
  let timestep := timestep_s FlowSpec sim_params in
  let iters := py_int (total_time_s FlowSpec sim_params / timestep) in
  0 < timestep -> (2 <= iters)%Z ->
  GyreFlow_new (flow_spec FlowSpec sim_params) = inr flow ->
  Controller_new flow (flow_ori FlowSpec sim_params)
                 (flow_dir FlowSpec sim_params) timestep = inr cont0 ->
  exists (out : SimulationOutput Flow) (k : Z),
    run_simulation p = inr (out, radius FlowSpec p) /\
    Swimmer.timestamps (modboat Flow out) = step_times timestep k /\
    Swimmer.timestamps (struct Flow out) = step_times timestep k /\
    strictly_increasing (Swimmer.timestamps (modboat Flow out)) /\
    strictly_increasing (Swimmer.timestamps (struct Flow out)).
Proof.
  intros sim_params timestep iters Hts Hiters Hflow Hcont.
  destruct (run_simulation_returns p flow cont0 (fun _ _ _ => True))
    as (out & k & Hrun & _ & _ & _ & _ & _ & Htb & Htss & _);
    try assumption; try exact I.
  { intros. exact I. }
  { apply Rgt_not_eq. exact Hts. }
  exists out, k. split; [exact Hrun |]. split; [exact Htb |].
  split; [exact Htss |]. rewrite Htb, Htss.
  split; apply step_times_increase; exact Hts.
Qed.

(** X17. A run too short to have a first row fails in the constructor of
    the mobile swimmer, before the flow and the controller are built:
    with [iters = int(total_time_s / timestep_s)], [run_simulation] raises
    [ValueError] when [iters < 0] and [IndexError] when [iters = 0]. *)
Theorem simulation_without_steps_fails (p : SimulationProblem FlowSpec) :
  let sim_params := simulation_params FlowSpec p in
  let timestep := timestep_s FlowSpec sim_params in
  let iters := py_int (total_time_s FlowSpec sim_params / timestep) in
  timestep <> 0 -> (iters <= 0)%Z ->
  run_simulation p =
    inl (Raised (if (iters <? 0)%Z then ValueError else IndexError)).
Proof.
  intros sim_params timestep iters Hts Hiters.
  unfold Simulation.run_simulation. fold sim_params. fold timestep.
  destruct (Req_dec_T timestep 0); [contradiction |]. fold iters.
  destruct (Z.ltb_spec iters 0) as [Hneg | Hnn].
  - unfold Swimmer.init, Swimmer.zeros.
    destruct (Z.ltb_spec iters 0); [reflexivity | lia].
  - assert (iters = 0%Z) as -> by lia. reflexivity.
Qed.

(** X18. A run of exactly one iteration fails on return: the swimmers
    have one row each, [range(1, 1)] is empty, so the loop never assigns
    [t], and building the output reads it: [UnboundLocalError]. *)
Theorem simulation_of_one_step_fails (p : SimulationProblem FlowSpec)
    (flow : Flow) (cont0 : Controller) :
  let sim_params := simulation_params FlowSpec p in
  let timestep := timestep_s FlowSpec sim_params in
  let iters := py_int (total_time_s FlowSpec sim_params / timestep) in
  timestep <> 0 -> iters = 1%Z ->
  GyreFlow_new (flow_spec FlowSpec sim_params) = inr flow ->
  Controller_new flow (flow_ori FlowSpec sim_params)
                 (flow_dir FlowSpec sim_params) timestep = inr cont0 ->
  run_simulation p = inl UnboundLocalError.
Proof.
  intros sim_params timestep iters Hts Hiters Hflow Hcont.
  unfold Simulation.run_simulation. fold sim_params. fold timestep.
  destruct (Req_dec_T timestep 0); [contradiction |]. fold iters.
  rewrite Hiters, !init_positive by lia. rewrite Hflow, Hcont.
  reflexivity.
Qed.

End SimulationFacts.

(** ** [run_simulation] on the concrete set-up *)

Section ConcreteSimulation.

Lemma py_int_IZR (n : Z) : (0 <= n)%Z -> py_int (IZR n / 1) = n.
Proof.
  intros Hn. unfold py_int. rewrite Rdiv_1_r.
  destruct (Rle_dec 0 (IZR n)) as [_ | Hneg].
  - rewrite <- (tech_up (IZR n) (n + 1)); [lia | |].
    + apply IZR_lt. lia.
    + rewrite plus_IZR. lra.
  - exfalso. apply Hneg. apply (IZR_le 0 n). exact Hn.
Qed.

Lemma vortex_control_returns (pos targ : R * R) (c : ApproachController.t) :
  exists (c' : ApproachController.t) (v : vec3),
    vortex_control pos targ c = (c', inr v).
Proof.
  unfold vortex_control. rewrite get_control_vel_unfold. cbn zeta.
  eexists. eexists. reflexivity.
Qed.

Lemma vortex_evaluate_returns (c : ApproachController.t) :
  exists (c' : ApproachController.t) (b : bool),
    ApproachController.evaluate_convergence c = (c', inr b).
Proof.
  rewrite evaluate_convergence_unfold. cbn zeta.
  eexists. eexists. reflexivity.
Qed.

Lemma init_unit_step :
  ApproachController.init polar_flow CCW IN 1 =
    inr (ApproachController.mk 0.5 0.01 polar_flow CCW IN 0
           (ApproachController.time_to_convergence / 1) Inf Inf).
Proof. apply init_unfold. lra. Qed.

Lemma simulation_stays_within_lifespan_witness :
  (1 : R) <> 0 /\ (2 <= py_int (3 / 1))%Z /\
  exists (out : Simulation.SimulationOutput GyreFlow) (k : Z),
    run_vortex_simulation 3 1 = inr (out, 0) /\
    (1 <= k <= py_int (3 / 1) - 1)%Z /\
    Swimmer.life (Simulation.modboat GyreFlow out) = k /\
    Swimmer.life (Simulation.struct GyreFlow out) = k /\
    Swimmer.lifespan (Simulation.modboat GyreFlow out) = py_int (3 / 1) /\
    Swimmer.lifespan (Simulation.struct GyreFlow out) = py_int (3 / 1) /\
    Simulation.success_time GyreFlow out = 1 * IZR k /\
    (Simulation.success GyreFlow out = false ->
     k = (py_int (3 / 1) - 1)%Z).
Proof.
  assert (Hts : (1 : R) <> 0) by lra.
  assert (Hiters : (2 <= py_int (3 / 1))%Z).
  { rewrite (py_int_IZR 3) by lia. lia. }
  split; [exact Hts |]. split; [exact Hiters |].
  exact (simulation_stays_within_lifespan unit GyreFlow ApproachController.t
           (fun _ => inr polar_flow) solid_rotation ApproachController.init
           vortex_control ApproachController.evaluate_convergence
           vortex_control_returns vortex_evaluate_returns
           (vortex_problem 3 1) polar_flow _ Hts Hiters eq_refl
           init_unit_step).
Defined.

Lemma simulation_times_increase_witness :
  0 < 1 /\ (2 <= py_int (3 / 1))%Z /\
  exists (out : Simulation.SimulationOutput GyreFlow) (k : Z),
    run_vortex_simulation 3 1 = inr (out, 0) /\
    Swimmer.timestamps (Simulation.modboat GyreFlow out)
      = Simulation.step_times 1 k /\
    Swimmer.timestamps (Simulation.struct GyreFlow out)
      = Simulation.step_times 1 k /\
    strictly_increasing (Swimmer.timestamps (Simulation.modboat GyreFlow out))
    /\
    strictly_increasing (Swimmer.timestamps (Simulation.struct GyreFlow out)).
Proof.
  assert (Hts : 0 < 1) by lra.
  assert (Hiters : (2 <= py_int (3 / 1))%Z).
  { rewrite (py_int_IZR 3) by lia. lia. }
  split; [exact Hts |]. split; [exact Hiters |].
  exact (simulation_times_increase unit GyreFlow ApproachController.t
           (fun _ => inr polar_flow) solid_rotation ApproachController.init
           vortex_control ApproachController.evaluate_convergence
           vortex_control_returns vortex_evaluate_returns
           (vortex_problem 3 1) polar_flow _ Hts Hiters eq_refl
           init_unit_step).
Defined.

Lemma simulation_without_steps_fails_witness :
  (1 : R) <> 0 /\ (py_int (0 / 1) <= 0)%Z /\
  run_vortex_simulation 0 1 =
    inl (Simulation.Raised
           (if (py_int (0 / 1) <? 0)%Z then ValueError else IndexError)).
Proof.
  assert (Hts : (1 : R) <> 0) by lra.
  assert (Hiters : (py_int (0 / 1) <= 0)%Z).
  { rewrite (py_int_IZR 0) by lia. lia. }
  split; [exact Hts |]. split; [exact Hiters |].
  exact (simulation_without_steps_fails unit GyreFlow ApproachController.t
           (fun _ => inr polar_flow) solid_rotation ApproachController.init
           vortex_control ApproachController.evaluate_convergence
           (vortex_problem 0 1) Hts Hiters).
Defined.

Lemma simulation_of_one_step_fails_witness :
  (1 : R) <> 0 /\ py_int (1 / 1) = 1%Z /\
  run_vortex_simulation 1 1 = inl Simulation.UnboundLocalError.
Proof.
  assert (Hts : (1 : R) <> 0) by lra.
  assert (Hiters : py_int (1 / 1) = 1%Z) by (apply (py_int_IZR 1); lia).
  split; [exact Hts |]. split; [exact Hiters |].
  exact (simulation_of_one_step_fails unit GyreFlow ApproachController.t
           (fun _ => inr polar_flow) solid_rotation ApproachController.init
           vortex_control ApproachController.evaluate_convergence
           (vortex_problem 1 1) polar_flow _ Hts Hiters eq_refl
           init_unit_step).
Defined.

End ConcreteSimulation.
